(** * SafeFood platform: schema and row-level-security policies

    A shallow embedding of the initial SafeFood schema migration (the SQL that
    follows the i18n bootstrap in [src/i18n/index.ts]): the enum types, the
    seven tables, [ENABLE ROW LEVEL SECURITY] on each of them and the
    [CREATE POLICY] statements, together with the PostgreSQL semantics the
    migration relies on (three-valued logic, permissive policies, default
    deny, primary and foreign keys). *)

From Stdlib Require Import List Bool ZArith NArith String Lia.
From Stdlib Require Import Floats.PrimFloat.
Import ListNotations.

Local Open Scope string_scope.
Local Open Scope bool_scope.

(** ** SQL base types *)

Definition uuid := N.                 (* UUID, a 128-bit number *)
Definition text := string.            (* TEXT *)
Definition timestamptz := Z.          (* TIMESTAMPTZ, microseconds since the epoch *)
Definition date := Z.                 (* DATE, days since the epoch *)
Definition integer := Z.              (* INTEGER *)
Definition decimal := Z.              (* DECIMAL(p,2), in hundredths *)
Definition double_precision := float. (* DOUBLE PRECISION, binary64 *)

(** ** Enum types

    [CREATE TYPE user_role AS ENUM ('admin', 'donor', 'charity', 'volunteer')]
    and its two siblings.  The constructors are the enum's members, in the
    order of declaration. *)

Inductive user_role := admin | donor | charity | volunteer.

Inductive donation_status := pending | assigned | picked_up | delivered | cancelled.

Inductive food_type := prepared_meals | groceries | produce | bakery | other.

Definition user_role_eqb (a b : user_role) : bool :=
  match a, b with
  | admin, admin | donor, donor | charity, charity | volunteer, volunteer => true
  | _, _ => false
  end.

(** The labels of an enum, as written in its [CREATE TYPE]. *)

Definition donation_status_labels : list text :=
  ["pending"; "assigned"; "picked_up"; "delivered"; "cancelled"].

Definition food_type_labels : list text :=
  ["prepared_meals"; "groceries"; "produce"; "bakery"; "other"].

(** Output function of an enum: the label of a member. *)

Definition donation_status_out (s : donation_status) : text :=
  match s with
  | pending => "pending"
  | assigned => "assigned"
  | picked_up => "picked_up"
  | delivered => "delivered"
  | cancelled => "cancelled"
  end.

Definition food_type_out (f : food_type) : text :=
  match f with
  | prepared_meals => "prepared_meals"
  | groceries => "groceries"
  | produce => "produce"
  | bakery => "bakery"
  | other => "other"
  end.

(** Input function of an enum: a text that is not a label is rejected
    ("invalid input value for enum"). *)

Definition donation_status_in (l : text) : option donation_status :=
  if String.eqb l "pending" then Some pending
  else if String.eqb l "assigned" then Some assigned
  else if String.eqb l "picked_up" then Some picked_up
  else if String.eqb l "delivered" then Some delivered
  else if String.eqb l "cancelled" then Some cancelled
  else None.

Definition food_type_in (l : text) : option food_type :=
  if String.eqb l "prepared_meals" then Some prepared_meals
  else if String.eqb l "groceries" then Some groceries
  else if String.eqb l "produce" then Some produce
  else if String.eqb l "bakery" then Some bakery
  else if String.eqb l "other" then Some other
  else None.

(** ** Tables

    One module per table; a row is a record with the table's columns.  A
    column declared [NOT NULL] (or [PRIMARY KEY]) holds a value, any other
    column holds an [option], [None] being SQL's NULL: a [DEFAULT] fills a
    column that an INSERT leaves out, it does not forbid NULL. *)

Module users.
Record row := {
  id : uuid;
  full_name : text;
  phone : option text;
  role : user_role;
  created_at : option timestamptz;
  updated_at : option timestamptz }.
End users.

Module organizations.
Record row := {
  id : uuid;
  user_id : uuid;
  name : text;
  type : text;
  address : text;
  latitude : double_precision;
  longitude : double_precision;
  contact_person : text;
  contact_phone : text;
  verified : option bool;
  created_at : option timestamptz }.
End organizations.

Module charities.
Record row := {
  id : uuid;
  user_id : uuid;
  name : text;
  registration_number : text;
  address : text;
  latitude : double_precision;
  longitude : double_precision;
  contact_person : text;
  contact_phone : text;
  verified : option bool;
  created_at : option timestamptz }.
End charities.

Module volunteers.
Record row := {
  id : uuid;
  user_id : uuid;
  available : option bool;
  latitude : option double_precision;
  longitude : option double_precision;
  last_active : option timestamptz;
  total_pickups : option integer;
  rating : option decimal;
  created_at : option timestamptz }.
End volunteers.

Module donations.
Record row := {
  id : uuid;
  organization_id : uuid;
  food_type : food_type;
  quantity : integer;
  description : text;
  expiry : timestamptz;
  pickup_window_start : timestamptz;
  pickup_window_end : timestamptz;
  status : option donation_status;
  temperature_requirements : option text;
  handling_instructions : option text;
  created_at : option timestamptz;
  updated_at : option timestamptz }.
End donations.

Module pickups.
Record row := {
  id : uuid;
  donation_id : uuid;
  charity_id : option uuid;
  volunteer_id : option uuid;
  assigned_at : option timestamptz;
  picked_up_at : option timestamptz;
  delivered_at : option timestamptz;
  proof_of_pickup : option text;
  proof_of_delivery : option text;
  notes : option text;
  rating : option integer;
  created_at : option timestamptz }.
End pickups.

Module impact_metrics.
Record row := {
  id : uuid;
  date : date;
  meals_saved : option integer;
  kg_food_saved : option decimal;
  co2_saved : option decimal;
  beneficiaries_served : option integer;
  created_at : option timestamptz;
  updated_at : option timestamptz }.
End impact_metrics.

Inductive table :=
  Users | Organizations | Charities | Volunteers | Donations | Pickups | Impact_metrics.

Definition row_of (t : table) : Type :=
  match t with
  | Users => users.row
  | Organizations => organizations.row
  | Charities => charities.row
  | Volunteers => volunteers.row
  | Donations => donations.row
  | Pickups => pickups.row
  | Impact_metrics => impact_metrics.row
  end.

(** The primary key of a row: every table has [id UUID PRIMARY KEY]. *)

Definition pk (t : table) : row_of t -> uuid :=
  match t with
  | Users => users.id
  | Organizations => organizations.id
  | Charities => charities.id
  | Volunteers => volunteers.id
  | Donations => donations.id
  | Pickups => pickups.id
  | Impact_metrics => impact_metrics.id
  end.

(** The state of the database: the rows of the seven tables, and the ids of
    [auth.users], the identity provider's table that [users.id] references
    and that the migration does not create. *)

Record database := {
  auth_users : list uuid;
  users_rows : list users.row;
  organizations_rows : list organizations.row;
  charities_rows : list charities.row;
  volunteers_rows : list volunteers.row;
  donations_rows : list donations.row;
  pickups_rows : list pickups.row;
  impact_metrics_rows : list impact_metrics.row }.

Definition rows (t : table) (db : database) : list (row_of t) :=
  match t with
  | Users => users_rows db
  | Organizations => organizations_rows db
  | Charities => charities_rows db
  | Volunteers => volunteers_rows db
  | Donations => donations_rows db
  | Pickups => pickups_rows db
  | Impact_metrics => impact_metrics_rows db
  end.

Definition set_rows (t : table) : list (row_of t) -> database -> database :=
  match t with
  | Users => fun l db =>
      {| auth_users := auth_users db; users_rows := l;
         organizations_rows := organizations_rows db;
         charities_rows := charities_rows db;
         volunteers_rows := volunteers_rows db;
         donations_rows := donations_rows db;
         pickups_rows := pickups_rows db;
         impact_metrics_rows := impact_metrics_rows db |}
  | Organizations => fun l db =>
      {| auth_users := auth_users db; users_rows := users_rows db;
         organizations_rows := l;
         charities_rows := charities_rows db;
         volunteers_rows := volunteers_rows db;
         donations_rows := donations_rows db;
         pickups_rows := pickups_rows db;
         impact_metrics_rows := impact_metrics_rows db |}
  | Charities => fun l db =>
      {| auth_users := auth_users db; users_rows := users_rows db;
         organizations_rows := organizations_rows db;
         charities_rows := l;
         volunteers_rows := volunteers_rows db;
         donations_rows := donations_rows db;
         pickups_rows := pickups_rows db;
         impact_metrics_rows := impact_metrics_rows db |}
  | Volunteers => fun l db =>
      {| auth_users := auth_users db; users_rows := users_rows db;
         organizations_rows := organizations_rows db;
         charities_rows := charities_rows db;
         volunteers_rows := l;
         donations_rows := donations_rows db;
         pickups_rows := pickups_rows db;
         impact_metrics_rows := impact_metrics_rows db |}
  | Donations => fun l db =>
      {| auth_users := auth_users db; users_rows := users_rows db;
         organizations_rows := organizations_rows db;
         charities_rows := charities_rows db;
         volunteers_rows := volunteers_rows db;
         donations_rows := l;
         pickups_rows := pickups_rows db;
         impact_metrics_rows := impact_metrics_rows db |}
  | Pickups => fun l db =>
      {| auth_users := auth_users db; users_rows := users_rows db;
         organizations_rows := organizations_rows db;
         charities_rows := charities_rows db;
         volunteers_rows := volunteers_rows db;
         donations_rows := donations_rows db;
         pickups_rows := l;
         impact_metrics_rows := impact_metrics_rows db |}
  | Impact_metrics => fun l db =>
      {| auth_users := auth_users db; users_rows := users_rows db;
         organizations_rows := organizations_rows db;
         charities_rows := charities_rows db;
         volunteers_rows := volunteers_rows db;
         donations_rows := donations_rows db;
         pickups_rows := pickups_rows db;
         impact_metrics_rows := l |}
  end.

(** The database right after the migration: seven empty tables. *)

Definition migrated (au : list uuid) : database :=
  {| auth_users := au; users_rows := []; organizations_rows := [];
     charities_rows := []; volunteers_rows := []; donations_rows := [];
     pickups_rows := []; impact_metrics_rows := [] |}.

(** ** SQL's three-valued logic

    A boolean expression evaluates to true, false or NULL ([None]).  A row
    passes a policy, or a WHERE clause, only when the expression is true. *)

Definition sql_bool := option bool.

Definition is_true (b : sql_bool) : bool :=
  match b with
  | Some true => true
  | _ => false
  end.

Definition sql_or (a b : sql_bool) : sql_bool :=
  match a, b with
  | Some true, _ | _, Some true => Some true
  | Some false, Some false => Some false
  | _, _ => None
  end.

(** [x = y]: NULL as soon as one side is NULL. *)

Definition sql_eq {A : Type} (eqb : A -> A -> bool) (x y : option A) : sql_bool :=
  match x, y with
  | Some a, Some b => Some (eqb a b)
  | _, _ => None
  end.

(** [x IN (subquery)]: true if some row of the subquery equals [x], false if
    none does and no comparison is NULL (so false on an empty subquery, even
    for a NULL [x]), NULL otherwise. *)

Definition sql_in {A : Type} (eqb : A -> A -> bool) (x : option A)
    (subquery : list (option A)) : sql_bool :=
  fold_right sql_or (Some false) (map (sql_eq eqb x) subquery).

(** [q1 UNION q2]: the rows of both, without duplicates. *)

Definition option_uuid_eq_dec (x y : option uuid) : {x = y} + {x <> y}.
Proof. decide equality. apply N.eq_dec. Defined.

Definition sql_union (q1 q2 : list (option uuid)) : list (option uuid) :=
  nodup option_uuid_eq_dec (q1 ++ q2).

(** ** The session

    [auth.uid()] and [auth.role()] are the identity provider's functions: they
    read the subject and the role claim of the session's token, and are NULL
    when the claim is absent. *)

Module auth.
Record jwt := { uid : option uuid; role : option text }.
End auth.

Definition principal : Type := auth.jwt.

(** ** Policies

    A policy as the catalog stores it: its name, the command it is [FOR]
    ([FOR_ALL] when the clause is absent), its [USING] expression and its
    [WITH CHECK] expression.  An expression is evaluated for a principal, on a
    state of the database (for its subqueries) and on one row of the policy's
    table. *)

Inductive command := SELECT | INSERT | UPDATE | DELETE.

Definition command_eqb (a b : command) : bool :=
  match a, b with
  | SELECT, SELECT | INSERT, INSERT | UPDATE, UPDATE | DELETE, DELETE => true
  | _, _ => false
  end.

Inductive policy_command := FOR_ALL | FOR (c : command).

Definition expression (R : Type) : Type := principal -> database -> R -> sql_bool.

Record policy (R : Type) := {
  polname : string;
  polcmd : policy_command;
  polqual : option (expression R);
  polwithcheck : option (expression R) }.

Arguments polname {R} _.
Arguments polcmd {R} _.
Arguments polqual {R} _.
Arguments polwithcheck {R} _.

(** [ALTER TABLE ... ENABLE ROW LEVEL SECURITY], issued for each of the seven
    tables (none is [FORCE]d).  On a table without row security the policies
    would not be applied. *)

Definition relrowsecurity (t : table) : bool :=
  match t with
  | Users => true
  | Organizations => true
  | Charities => true
  | Volunteers => true
  | Donations => true
  | Pickups => true
  | Impact_metrics => true
  end.

Section RowSecurity.
Context {R : Type}.

Definition applies (c : command) (P : policy R) : bool :=
  match polcmd P with
  | FOR_ALL => true
  | FOR c' => command_eqb c c'
  end.

(** An absent [USING] restricts nothing; an absent [WITH CHECK] takes the
    [USING] expression. *)

Definition using_expression (P : policy R) : expression R :=
  match polqual P with
  | Some e => e
  | None => fun _ _ _ => Some true
  end.

Definition check_expression (P : policy R) : expression R :=
  match polwithcheck P with
  | Some e => e
  | None => using_expression P
  end.

(** The policies are permissive: a row passes when one policy that applies
    to the command accepts it.  With row security enabled and no policy for
    the command, no row passes (default deny). *)

Definition rls_using (c : command) (pols : list (policy R))
    (p : principal) (db : database) (r : R) : bool :=
  existsb (fun P => applies c P && is_true (using_expression P p db r)) pols.

Definition rls_check (c : command) (pols : list (policy R))
    (p : principal) (db : database) (r : R) : bool :=
  existsb (fun P => applies c P && is_true (check_expression P p db r)) pols.

(** What the principal's SELECT sees of a table: a subquery in a policy
    reads the other tables through their own policies. *)

Definition select_from (t : table) (pols : list (policy R)) (p : principal)
    (db : database) (table_rows : list R) : list R :=
  if relrowsecurity t then filter (rls_using SELECT pols p db) table_rows
  else table_rows.
End RowSecurity.

Definition authenticated (p : principal) : sql_bool :=
  sql_eq String.eqb (auth.role p) (Some "authenticated").

(** *** users

    [CREATE POLICY "Users can read own data" ON users
       FOR SELECT USING (auth.uid() = id)] *)

Definition users_policies : list (policy users.row) :=
  [ {| polname := "Users can read own data";
       polcmd := FOR SELECT;
       polqual := Some (fun p _ r => sql_eq N.eqb (auth.uid p) (Some (users.id r)));
       polwithcheck := None |} ].

(** [SELECT user_id FROM users WHERE role = 'donor'], inside a policy on a
    table that has a [user_id] column: [users] has no such column, so the name
    is the outer row's [user_id], and the subquery yields it once for every
    row of [users] that the principal sees and that has the role. *)

Definition user_id_from_users_where_role (ro : user_role) (outer_user_id : uuid)
    (p : principal) (db : database) : list (option uuid) :=
  map (fun _ : users.row => Some outer_user_id)
      (filter (fun u => is_true (sql_eq user_role_eqb (Some (users.role u)) (Some ro)))
              (select_from Users users_policies p db (users_rows db))).

(** *** organizations

    [CREATE POLICY "Organizations visible to authenticated users" ON organizations
       FOR SELECT USING (auth.role() = 'authenticated')]
    [CREATE POLICY "Organizations can manage their own data" ON organizations
       USING (auth.uid() IN (SELECT user_id FROM users WHERE role = 'donor'))] *)

Definition organizations_policies : list (policy organizations.row) :=
  [ {| polname := "Organizations visible to authenticated users";
       polcmd := FOR SELECT;
       polqual := Some (fun p _ _ => authenticated p);
       polwithcheck := None |};
    {| polname := "Organizations can manage their own data";
       polcmd := FOR_ALL;
       polqual := Some (fun p db r =>
         sql_in N.eqb (auth.uid p)
           (user_id_from_users_where_role donor (organizations.user_id r) p db));
       polwithcheck := None |} ].

(** *** charities *)

Definition charities_policies : list (policy charities.row) :=
  [ {| polname := "Charities visible to authenticated users";
       polcmd := FOR SELECT;
       polqual := Some (fun p _ _ => authenticated p);
       polwithcheck := None |};
    {| polname := "Charities can manage their own data";
       polcmd := FOR_ALL;
       polqual := Some (fun p db r =>
         sql_in N.eqb (auth.uid p)
           (user_id_from_users_where_role charity (charities.user_id r) p db));
       polwithcheck := None |} ].

(** *** volunteers *)

Definition volunteers_policies : list (policy volunteers.row) :=
  [ {| polname := "Volunteers visible to authenticated users";
       polcmd := FOR SELECT;
       polqual := Some (fun p _ _ => authenticated p);
       polwithcheck := None |};
    {| polname := "Volunteers can manage their own data";
       polcmd := FOR_ALL;
       polqual := Some (fun p db r =>
         sql_in N.eqb (auth.uid p)
           (user_id_from_users_where_role volunteer (volunteers.user_id r) p db));
       polwithcheck := None |} ].

(** *** donations

    [CREATE POLICY "Donations visible to authenticated users" ON donations
       FOR SELECT USING (auth.role() = 'authenticated')]
    [CREATE POLICY "Organizations can manage their donations" ON donations
       USING (organization_id IN
                (SELECT id FROM organizations WHERE user_id = auth.uid()))] *)

Definition donations_policies : list (policy donations.row) :=
  [ {| polname := "Donations visible to authenticated users";
       polcmd := FOR SELECT;
       polqual := Some (fun p _ _ => authenticated p);
       polwithcheck := None |};
    {| polname := "Organizations can manage their donations";
       polcmd := FOR_ALL;
       polqual := Some (fun p db r =>
         sql_in N.eqb (Some (donations.organization_id r))
           (map (fun o => Some (organizations.id o))
              (filter (fun o => is_true (sql_eq N.eqb (Some (organizations.user_id o))
                                                       (auth.uid p)))
                 (select_from Organizations organizations_policies p db (organizations_rows db)))));
       polwithcheck := None |} ].

(** *** pickups

    [CREATE POLICY "Pickups visible to relevant parties" ON pickups
       FOR SELECT USING (auth.uid() IN (
         SELECT user_id FROM volunteers WHERE id = volunteer_id
         UNION
         SELECT user_id FROM charities WHERE id = charity_id
         UNION
         SELECT o.user_id FROM organizations o
         JOIN donations d ON d.organization_id = o.id
         WHERE d.id = donation_id))]

    [volunteer_id], [charity_id] and [donation_id] are columns of the pickup. *)

Definition pickup_parties (p : principal) (db : database) (k : pickups.row)
    : list (option uuid) :=
  sql_union
    (sql_union
       (map (fun v => Some (volunteers.user_id v))
          (filter (fun v => is_true (sql_eq N.eqb (Some (volunteers.id v))
                                                   (pickups.volunteer_id k)))
             (select_from Volunteers volunteers_policies p db (volunteers_rows db))))
       (map (fun c => Some (charities.user_id c))
          (filter (fun c => is_true (sql_eq N.eqb (Some (charities.id c))
                                                   (pickups.charity_id k)))
             (select_from Charities charities_policies p db (charities_rows db)))))
    (flat_map
       (fun o =>
          map (fun _ : donations.row => Some (organizations.user_id o))
            (filter (fun d =>
                       is_true (sql_eq N.eqb (Some (donations.organization_id d))
                                             (Some (organizations.id o)))
                       && is_true (sql_eq N.eqb (Some (donations.id d))
                                                (Some (pickups.donation_id k))))
               (select_from Donations donations_policies p db (donations_rows db))))
       (select_from Organizations organizations_policies p db (organizations_rows db))).

Definition pickups_policies : list (policy pickups.row) :=
  [ {| polname := "Pickups visible to relevant parties";
       polcmd := FOR SELECT;
       polqual := Some (fun p db k => sql_in N.eqb (auth.uid p) (pickup_parties p db k));
       polwithcheck := None |} ].

(** *** impact_metrics

    [CREATE POLICY "Impact metrics visible to authenticated users" ON impact_metrics
       FOR SELECT USING (auth.role() = 'authenticated')] *)

Definition impact_metrics_policies : list (policy impact_metrics.row) :=
  [ {| polname := "Impact metrics visible to authenticated users";
       polcmd := FOR SELECT;
       polqual := Some (fun p _ _ => authenticated p);
       polwithcheck := None |} ].

Definition policies (t : table) : list (policy (row_of t)) :=
  match t with
  | Users => users_policies
  | Organizations => organizations_policies
  | Charities => charities_policies
  | Volunteers => volunteers_policies
  | Donations => donations_policies
  | Pickups => pickups_policies
  | Impact_metrics => impact_metrics_policies
  end.

(** ** Row-level permissions

    What row security lets a principal do with one row of a table.  The
    migration grants and revokes no privilege and its policies have no [TO]
    clause: the principal is taken to hold the privileges on the tables, so
    that the policies alone decide.  A statement that names its rows by a
    WHERE clause needs SELECT rights on them, so an UPDATE or a DELETE also
    applies the SELECT policies: to the existing row, and for an UPDATE to the
    new row as well. *)

Definition passes_using (c : command) (t : table) (p : principal) (db : database)
    (r : row_of t) : bool :=
  if relrowsecurity t then rls_using c (policies t) p db r else true.

Definition passes_check (c : command) (t : table) (p : principal) (db : database)
    (r : row_of t) : bool :=
  if relrowsecurity t then rls_check c (policies t) p db r else true.

Definition can_select (t : table) (p : principal) (db : database) (r : row_of t) : bool :=
  passes_using SELECT t p db r.

Definition can_insert (t : table) (p : principal) (db : database) (new : row_of t) : bool :=
  passes_check INSERT t p db new.

Definition can_update_row (t : table) (p : principal) (db : database) (old : row_of t) : bool :=
  can_select t p db old && passes_using UPDATE t p db old.

Definition can_update_to (t : table) (p : principal) (db : database) (new : row_of t) : bool :=
  passes_check UPDATE t p db new && can_select t p db new.

Definition can_delete (t : table) (p : principal) (db : database) (old : row_of t) : bool :=
  can_select t p db old && passes_using DELETE t p db old.

(** A write of a row: the row an INSERT adds, the row an UPDATE finds and the
    row it puts in its place, the row a DELETE removes. *)

Inductive write (R : Type) :=
| inserting (new : R)
| updating (old new : R)
| deleting (old : R).

Arguments inserting {R} new.
Arguments updating {R} old new.
Arguments deleting {R} old.

Definition permitted (t : table) (p : principal) (db : database)
    (w : write (row_of t)) : bool :=
  match w with
  | inserting new => can_insert t p db new
  | updating old new => can_update_row t p db old && can_update_to t p db new
  | deleting old => can_delete t p db old
  end.

(** The rows a write touches. *)

Definition touched {R : Type} (w : write R) : list R :=
  match w with
  | inserting new => [new]
  | updating old new => [old; new]
  | deleting old => [old]
  end.

(** ** Constraints *)

Definition find_row (t : table) (i : uuid) (db : database) : option (row_of t) :=
  find (fun r => N.eqb (pk t r) i) (rows t db).

Definition has_key (t : table) (i : uuid) (db : database) : bool :=
  existsb (fun r => N.eqb (pk t r) i) (rows t db).

(** A nullable reference is not checked when it is NULL. *)

Definition references (t : table) (i : option uuid) (db : database) : bool :=
  match i with
  | Some i => has_key t i db
  | None => true
  end.

(** The [REFERENCES] clauses of the table: the rows its row points to exist. *)

Definition foreign_keys (t : table) (db : database) : row_of t -> bool :=
  match t with
  | Users => fun r => existsb (N.eqb (users.id r)) (auth_users db)
  | Organizations => fun r => has_key Users (organizations.user_id r) db
  | Charities => fun r => has_key Users (charities.user_id r) db
  | Volunteers => fun r => has_key Users (volunteers.user_id r) db
  | Donations => fun r => has_key Organizations (donations.organization_id r) db
  | Pickups => fun r =>
      has_key Donations (pickups.donation_id r) db
      && references Charities (pickups.charity_id r) db
      && references Volunteers (pickups.volunteer_id r) db
  | Impact_metrics => fun _ => true
  end.

(** Whether a row of another table points to the row [i] of [t]: no
    [REFERENCES] clause has an [ON DELETE] or [ON UPDATE] action, so such a
    row cannot be deleted, nor have its key changed. *)

Definition referenced (t : table) (i : uuid) (db : database) : bool :=
  match t with
  | Users =>
      existsb (fun o => N.eqb (organizations.user_id o) i) (organizations_rows db)
      || existsb (fun c => N.eqb (charities.user_id c) i) (charities_rows db)
      || existsb (fun v => N.eqb (volunteers.user_id v) i) (volunteers_rows db)
  | Organizations =>
      existsb (fun d => N.eqb (donations.organization_id d) i) (donations_rows db)
  | Charities =>
      existsb (fun k => is_true (sql_eq N.eqb (pickups.charity_id k) (Some i)))
              (pickups_rows db)
  | Volunteers =>
      existsb (fun k => is_true (sql_eq N.eqb (pickups.volunteer_id k) (Some i)))
              (pickups_rows db)
  | Donations =>
      existsb (fun k => N.eqb (pickups.donation_id k) i) (pickups_rows db)
  | Pickups | Impact_metrics => false
  end.

(** ** Statements

    A session is either exempt from row security (the owner of the tables,
    since row security is enabled but not forced, or a role that bypasses
    it), or a client of the API, who acts as the principal of its token. *)

Inductive session :=
| rls_exempt
| client (p : principal).

(** [INSERT INTO t VALUES new], [UPDATE t SET (..) = new WHERE id = i] and
    [DELETE FROM t WHERE id = i]; the row of an INSERT has its defaults filled
    in. *)

Inductive statement :=
| INSERT_INTO (t : table) (new : row_of t)
| UPDATE_WHERE_ID (t : table) (i : uuid) (new : row_of t)
| DELETE_WHERE_ID (t : table) (i : uuid).

Inductive error :=
| row_security_violation
| unique_violation
| foreign_key_violation.

Inductive result :=
| Ok (db : database)
| Err (e : error).

Definition may_insert (s : session) (t : table) (db : database) (new : row_of t) : bool :=
  match s with
  | rls_exempt => true
  | client p => can_insert t p db new
  end.

Definition may_update_row (s : session) (t : table) (db : database) (old : row_of t) : bool :=
  match s with
  | rls_exempt => true
  | client p => can_update_row t p db old
  end.

Definition may_update_to (s : session) (t : table) (db : database) (new : row_of t) : bool :=
  match s with
  | rls_exempt => true
  | client p => can_update_to t p db new
  end.

Definition may_delete (s : session) (t : table) (db : database) (old : row_of t) : bool :=
  match s with
  | rls_exempt => true
  | client p => can_delete t p db old
  end.

Definition replace_row (t : table) (i : uuid) (new : row_of t) (l : list (row_of t))
    : list (row_of t) :=
  map (fun r => if N.eqb (pk t r) i then new else r) l.

Definition remove_row (t : table) (i : uuid) (l : list (row_of t)) : list (row_of t) :=
  filter (fun r => negb (N.eqb (pk t r) i)) l.

(** One statement.  An INSERT whose row fails the policies' check is an
    error; an UPDATE or DELETE whose row the policies hide affects no row and
    succeeds; an UPDATE whose new row fails the check is an error.  The
    constraints come after row security. *)

Definition exec (s : session) (q : statement) (db : database) : result :=
  match q with
  | INSERT_INTO t new =>
      if negb (may_insert s t db new) then Err row_security_violation
      else if has_key t (pk t new) db then Err unique_violation
      else if negb (foreign_keys t db new) then Err foreign_key_violation
      else Ok (set_rows t (rows t db ++ [new]) db)
  | UPDATE_WHERE_ID t i new =>
      match find_row t i db with
      | None => Ok db
      | Some old =>
          if negb (may_update_row s t db old) then Ok db
          else if negb (may_update_to s t db new) then Err row_security_violation
          else if negb (N.eqb (pk t new) i) && has_key t (pk t new) db
               then Err unique_violation
          else if negb (foreign_keys t db new) then Err foreign_key_violation
          else if negb (N.eqb (pk t new) i) && referenced t i db
               then Err foreign_key_violation
          else Ok (set_rows t (replace_row t i new (rows t db)) db)
      end
  | DELETE_WHERE_ID t i =>
      match find_row t i db with
      | None => Ok db
      | Some old =>
          if negb (may_delete s t db old) then Ok db
          else if referenced t i db then Err foreign_key_violation
          else Ok (set_rows t (remove_row t i (rows t db)) db)
      end
  end.

(** A statement that fails is rolled back: the state is as it was. *)

Definition commit (s : session) (q : statement) (db : database) : database :=
  match exec s q db with
  | Ok db' => db'
  | Err _ => db
  end.

Fixpoint run (log : list (session * statement)) (db : database) : database :=
  match log with
  | [] => db
  | (s, q) :: log' => run log' (commit s q db)
  end.

(** The states the migrated database can get to. *)

Definition reachable (db : database) : Prop :=
  exists au log, db = run log (migrated au).

(** A log of clients' statements only. *)

Definition by_clients (log : list (principal * statement)) : list (session * statement) :=
  map (fun pq => (client (fst pq), snd pq)) log.

(** ** A small database

    Five users, one per role and a second volunteer; an organization, a
    charity and two volunteers; one donation and its pickup.  It is built by
    the statements of [seed], run by a session exempt from row security. *)

Module sample.
Local Open Scope N_scope.

Definition amal : users.row :=
  {| users.id := 1; users.full_name := "Amal"; users.phone := None;
     users.role := admin; users.created_at := Some 0%Z; users.updated_at := Some 0%Z |}.
Definition dalia : users.row :=
  {| users.id := 2; users.full_name := "Dalia"; users.phone := None;
     users.role := donor; users.created_at := Some 0%Z; users.updated_at := Some 0%Z |}.
Definition chadi : users.row :=
  {| users.id := 3; users.full_name := "Chadi"; users.phone := None;
     users.role := charity; users.created_at := Some 0%Z; users.updated_at := Some 0%Z |}.
Definition walid : users.row :=
  {| users.id := 4; users.full_name := "Walid"; users.phone := Some "0100";
     users.role := volunteer; users.created_at := Some 0%Z; users.updated_at := Some 0%Z |}.
Definition yara : users.row :=
  {| users.id := 5; users.full_name := "Yara"; users.phone := None;
     users.role := volunteer; users.created_at := Some 0%Z; users.updated_at := Some 0%Z |}.

Definition bakery_shop : organizations.row :=
  {| organizations.id := 10; organizations.user_id := 2;
     organizations.name := "Bakery"; organizations.type := "store";
     organizations.address := "1 Main St";
     organizations.latitude := 30%float; organizations.longitude := 31%float;
     organizations.contact_person := "Dalia"; organizations.contact_phone := "0101";
     organizations.verified := Some false; organizations.created_at := Some 0%Z |}.

Definition food_bank : charities.row :=
  {| charities.id := 20; charities.user_id := 3;
     charities.name := "Food bank"; charities.registration_number := "R-1";
     charities.address := "2 Main St";
     charities.latitude := 30%float; charities.longitude := 31%float;
     charities.contact_person := "Chadi"; charities.contact_phone := "0102";
     charities.verified := Some true; charities.created_at := Some 0%Z |}.

Definition courier (i u : uuid) : volunteers.row :=
  {| volunteers.id := i; volunteers.user_id := u;
     volunteers.available := Some true;
     volunteers.latitude := None; volunteers.longitude := None;
     volunteers.last_active := None; volunteers.total_pickups := Some 0%Z;
     volunteers.rating := Some 500%Z; volunteers.created_at := Some 0%Z |}.

Definition bread (i : uuid) (st : option donation_status) : donations.row :=
  {| donations.id := i; donations.organization_id := 10;
     donations.food_type := bakery; donations.quantity := 10%Z;
     donations.description := "bread";
     donations.expiry := 300%Z;
     donations.pickup_window_start := 100%Z; donations.pickup_window_end := 200%Z;
     donations.status := st;
     donations.temperature_requirements := None;
     donations.handling_instructions := None;
     donations.created_at := Some 0%Z; donations.updated_at := Some 0%Z |}.

Definition handoff (i : uuid) : pickups.row :=
  {| pickups.id := i; pickups.donation_id := 100;
     pickups.charity_id := Some 20%N; pickups.volunteer_id := Some 30%N;
     pickups.assigned_at := Some 50%Z;
     pickups.picked_up_at := None; pickups.delivered_at := None;
     pickups.proof_of_pickup := None; pickups.proof_of_delivery := None;
     pickups.notes := None; pickups.rating := None;
     pickups.created_at := Some 50%Z |}.

(** The pickup, once the volunteer has collected the food. *)

Definition picked (k : pickups.row) : pickups.row :=
  {| pickups.id := pickups.id k; pickups.donation_id := pickups.donation_id k;
     pickups.charity_id := pickups.charity_id k;
     pickups.volunteer_id := pickups.volunteer_id k;
     pickups.assigned_at := pickups.assigned_at k;
     pickups.picked_up_at := Some 150%Z;
     pickups.delivered_at := pickups.delivered_at k;
     pickups.proof_of_pickup := Some "photo-1";
     pickups.proof_of_delivery := pickups.proof_of_delivery k;
     pickups.notes := pickups.notes k; pickups.rating := pickups.rating k;
     pickups.created_at := pickups.created_at k |}.

Definition tally (i : uuid) (day : date) : impact_metrics.row :=
  {| impact_metrics.id := i; impact_metrics.date := day;
     impact_metrics.meals_saved := Some 0%Z;
     impact_metrics.kg_food_saved := Some 0%Z;
     impact_metrics.co2_saved := Some 0%Z;
     impact_metrics.beneficiaries_served := Some 0%Z;
     impact_metrics.created_at := Some 0%Z; impact_metrics.updated_at := Some 0%Z |}.

Definition seed : list (session * statement) :=
  [ (rls_exempt, INSERT_INTO Users amal);
    (rls_exempt, INSERT_INTO Users dalia);
    (rls_exempt, INSERT_INTO Users chadi);
    (rls_exempt, INSERT_INTO Users walid);
    (rls_exempt, INSERT_INTO Users yara);
    (rls_exempt, INSERT_INTO Organizations bakery_shop);
    (rls_exempt, INSERT_INTO Charities food_bank);
    (rls_exempt, INSERT_INTO Volunteers (courier 30 4));
    (rls_exempt, INSERT_INTO Volunteers (courier 31 5));
    (rls_exempt, INSERT_INTO Donations (bread 100 (Some assigned)));
    (rls_exempt, INSERT_INTO Pickups (handoff 1000)) ].

Definition db : database := run seed (migrated [1; 2; 3; 4; 5]%N).

(** The same, with the donation delivered. *)

Definition delivered_db : database :=
  commit rls_exempt (UPDATE_WHERE_ID Donations 100 (bread 100 (Some delivered))) db.

(** The same, with a second pickup of the donation. *)

Definition double_booked : database :=
  commit rls_exempt (INSERT_INTO Pickups (handoff 1001)) db.

(** The same, with two rows of metrics for the day 7. *)

Definition double_counted : database :=
  run [ (rls_exempt, INSERT_INTO Impact_metrics (tally 500 7%Z));
        (rls_exempt, INSERT_INTO Impact_metrics (tally 501 7%Z)) ] db.

(** The token of the user [u], signed in. *)

Definition signed_in (u : uuid) : principal :=
  {| auth.uid := Some u; auth.role := Some "authenticated" |}.

Definition anonymous : principal :=
  {| auth.uid := None; auth.role := Some "anon" |}.
End sample.

(** ** Parties

    Who a principal is with respect to a row, read off the tables. *)

Definition is_user (p : principal) (u : uuid) : Prop := auth.uid p = Some u.

(** The principal has a row in [users] with the role. *)

Definition has_role (db : database) (p : principal) (ro : user_role) : Prop :=
  exists u, In u (users_rows db) /\ is_user p (users.id u) /\ users.role u = ro.

(** The three profile tables, the role the table's policy names and the
    [user_id] column of a profile row. *)

Inductive profile := Organization | Charity | Volunteer.

Definition profile_table (f : profile) : table :=
  match f with
  | Organization => Organizations
  | Charity => Charities
  | Volunteer => Volunteers
  end.

Definition profile_role (f : profile) : user_role :=
  match f with
  | Organization => donor
  | Charity => charity
  | Volunteer => volunteer
  end.

Definition profile_user_id (f : profile) : row_of (profile_table f) -> uuid :=
  match f with
  | Organization => organizations.user_id
  | Charity => charities.user_id
  | Volunteer => volunteers.user_id
  end.

(** The "manage their own data" expression of a profile table, on a row. *)

Definition own_profile (f : profile) (p : principal) (db : database)
    (e : row_of (profile_table f)) : bool :=
  is_true (sql_in N.eqb (auth.uid p)
             (user_id_from_users_where_role (profile_role f) (profile_user_id f e) p db)).

(** The "manage their donations" expression of [donations], on a row. *)

Definition own_donation (p : principal) (db : database) (d : donations.row) : bool :=
  is_true
    (sql_in N.eqb (Some (donations.organization_id d))
       (map (fun o => Some (organizations.id o))
          (filter (fun o => is_true (sql_eq N.eqb (Some (organizations.user_id o))
                                                   (auth.uid p)))
             (select_from Organizations organizations_policies p db
                (organizations_rows db))))).

(** The principal sees the profile rows it is the user of: every signed-in
    principal sees all the rows of a profile table, and a principal with the
    table's role sees its own through "manage their own data". *)

Definition sees_own (db : database) (p : principal) (ro : user_role) : Prop :=
  authenticated p = Some true \/ has_role db p ro.

(** [u] is the user of the organization that owns the donation. *)

Definition donation_owner (db : database) (d : donations.row) (u : uuid) : Prop :=
  exists o, In o (organizations_rows db)
            /\ organizations.id o = donations.organization_id d
            /\ organizations.user_id o = u.

(** [u] is the user of the volunteer, of the charity, of the donating
    organization of the pickup. *)

Definition pickup_volunteer (db : database) (k : pickups.row) (u : uuid) : Prop :=
  exists v, In v (volunteers_rows db)
            /\ pickups.volunteer_id k = Some (volunteers.id v)
            /\ volunteers.user_id v = u.

Definition pickup_charity (db : database) (k : pickups.row) (u : uuid) : Prop :=
  exists c, In c (charities_rows db)
            /\ pickups.charity_id k = Some (charities.id c)
            /\ charities.user_id c = u.

Definition pickup_donor (db : database) (k : pickups.row) (u : uuid) : Prop :=
  exists d, In d (donations_rows db)
            /\ donations.id d = pickups.donation_id k
            /\ donation_owner db d u.

(** ** The rules as the specification words them

    Each is the right-hand side of a rule of the specification's access
    policy, to be compared with what the policies compute. *)

Definition spec_profile_writer (db : database) (p : principal) (f : profile)
    (e : row_of (profile_table f)) : Prop :=
  (is_user p (profile_user_id f e) /\ has_role db p (profile_role f))
  \/ has_role db p admin.

Definition spec_pickup_writer (db : database) (p : principal) (k : pickups.row) : Prop :=
  (exists u, is_user p u /\ (pickup_volunteer db k u \/ pickup_charity db k u))
  \/ has_role db p admin.

Definition spec_pickup_reader (db : database) (p : principal) (k : pickups.row) : Prop :=
  (exists u, is_user p u
             /\ (pickup_volunteer db k u \/ pickup_charity db k u \/ pickup_donor db k u))
  \/ has_role db p admin.

Definition spec_donation_writer (db : database) (p : principal) (d : donations.row) : Prop :=
  (exists u, is_user p u /\ donation_owner db d u) \/ has_role db p admin.

(** The specification's state machine of a donation's status:
    pending -> assigned -> picked_up -> delivered, and cancelled from pending
    and from assigned. *)

Definition spec_edge (a b : donation_status) : bool :=
  match a, b with
  | pending, assigned | assigned, picked_up | picked_up, delivered
  | pending, cancelled | assigned, cancelled => true
  | _, _ => false
  end.

(** [UPDATE donations SET status = st]: the row with its status replaced. *)

Definition with_status (st : option donation_status) (d : donations.row) : donations.row :=
  {| donations.id := donations.id d;
     donations.organization_id := donations.organization_id d;
     donations.food_type := donations.food_type d;
     donations.quantity := donations.quantity d;
     donations.description := donations.description d;
     donations.expiry := donations.expiry d;
     donations.pickup_window_start := donations.pickup_window_start d;
     donations.pickup_window_end := donations.pickup_window_end d;
     donations.status := st;
     donations.temperature_requirements := donations.temperature_requirements d;
     donations.handling_instructions := donations.handling_instructions d;
     donations.created_at := donations.created_at d;
     donations.updated_at := donations.updated_at d |}.

(** The status of the donation [i], when the row exists. *)

Definition status_of (i : uuid) (db : database) : option (option donation_status) :=
  option_map donations.status (find_row Donations i db).

(** The role of the user [i], when the row exists. *)

Definition role_of (i : uuid) (db : database) : option user_role :=
  option_map users.role (find_row Users i db).

(** A pickup has no status of its own: it is taken as cancelled when its
    donation is. *)

Definition active (db : database) (k : pickups.row) : bool :=
  match status_of (pickups.donation_id k) db with
  | Some (Some cancelled) => false
  | _ => true
  end.

(** No two rows of the list agree on the key. *)

Fixpoint distinct_on {R K : Type} (eqb : K -> K -> bool) (key : R -> K) (l : list R)
    : bool :=
  match l with
  | [] => true
  | r :: l' => negb (existsb (fun r' => eqb (key r') (key r)) l')
               && distinct_on eqb key l'
  end.

Definition one_pickup_per_donation (db : database) : bool :=
  distinct_on N.eqb pickups.donation_id (pickups_rows db).

Definition one_active_pickup_per_donation (db : database) : bool :=
  distinct_on N.eqb pickups.donation_id (filter (active db) (pickups_rows db)).

Definition one_metric_per_date (db : database) : bool :=
  distinct_on Z.eqb impact_metrics.date (impact_metrics_rows db).

(** The table has policies for SELECT only: with row security enabled, no
    policy applies to a write. *)

Definition select_only (t : table) : bool :=
  forallb (fun P => match polcmd P with FOR SELECT => true | _ => false end)
          (policies t).

(** The primary keys of a table are distinct. *)

Definition unique_keys (t : table) (db : database) : Prop :=
  NoDup (map (pk t) (rows t db)).

(** ** References between rows

    [points_to t r T k]: the row [r] of [t] has a [REFERENCES T(id)] column
    that holds [k].  The reference of [users.id] to [auth.users] is to a table
    outside the seven and is not listed here. *)

Definition points_to (t : table) : row_of t -> table -> uuid -> bool :=
  match t with
  | Users => fun _ _ _ => false
  | Organizations => fun r T k =>
      match T with
      | Users => N.eqb (organizations.user_id r) k
      | _ => false
      end
  | Charities => fun r T k =>
      match T with
      | Users => N.eqb (charities.user_id r) k
      | _ => false
      end
  | Volunteers => fun r T k =>
      match T with
      | Users => N.eqb (volunteers.user_id r) k
      | _ => false
      end
  | Donations => fun r T k =>
      match T with
      | Organizations => N.eqb (donations.organization_id r) k
      | _ => false
      end
  | Pickups => fun r T k =>
      match T with
      | Donations => N.eqb (pickups.donation_id r) k
      | Charities => is_true (sql_eq N.eqb (pickups.charity_id r) (Some k))
      | Volunteers => is_true (sql_eq N.eqb (pickups.volunteer_id r) (Some k))
      | _ => false
      end
  | Impact_metrics => fun _ _ _ => false
  end.

(** Every row satisfies the [REFERENCES] clauses of its table. *)

Definition referential_integrity (db : database) : Prop :=
  forall t r, In r (rows t db) -> foreign_keys t db r = true.

(** ** More sample rows *)

(** The bakery's organization, marked as verified. *)

Definition verified_bakery : organizations.row :=
  {| organizations.id := 10%N; organizations.user_id := 2%N;
     organizations.name := "Bakery"; organizations.type := "store";
     organizations.address := "1 Main St";
     organizations.latitude := 30%float; organizations.longitude := 31%float;
     organizations.contact_person := "Dalia"; organizations.contact_phone := "0101";
     organizations.verified := Some true; organizations.created_at := Some 0%Z |}.

(** A pickup of the donation 100 with no charity and no volunteer yet. *)

Definition unassigned_pickup : pickups.row :=
  {| pickups.id := 1002%N; pickups.donation_id := 100%N;
     pickups.charity_id := None; pickups.volunteer_id := None;
     pickups.assigned_at := None;
     pickups.picked_up_at := None; pickups.delivered_at := None;
     pickups.proof_of_pickup := None; pickups.proof_of_delivery := None;
     pickups.notes := None; pickups.rating := None;
     pickups.created_at := Some 60%Z |}.

(** * Properties *)

(** ** Three-valued logic *)

Lemma is_true_sql_or (a b : sql_bool) :
  is_true (sql_or a b) = is_true a || is_true b.
Proof. destruct a as [[|]|], b as [[|]|]; reflexivity. Qed.

Lemma is_true_uuid_eq (x y : option uuid) :
  is_true (sql_eq N.eqb x y) = true <-> exists a, x = Some a /\ y = Some a.
Proof.
  destruct x as [a|], y as [b|]; simpl.
  - destruct (N.eqb_spec a b) as [->|Hne]; split.
    + intros _. now exists b.
    + reflexivity.
    + discriminate.
    + intros (c & Ha & Hb). congruence.
  - split; [discriminate | intros (c & _ & Hc); discriminate].
  - split; [discriminate | intros (c & Hc & _); discriminate].
  - split; [discriminate | intros (c & Hc & _); discriminate].
Qed.

Lemma sql_in_true (x : option uuid) (l : list (option uuid)) :
  is_true (sql_in N.eqb x l) = true <-> exists a, x = Some a /\ In (Some a) l.
Proof.
  unfold sql_in. induction l as [|y l IH]; simpl.
  - split; [discriminate | intros (a & _ & [])].
  - rewrite is_true_sql_or, orb_true_iff, IH, is_true_uuid_eq. split.
    + intros [(a & Hx & Hy) | (a & Hx & Hin)]; exists a; subst; auto.
    + intros (a & Hx & [Hy | Hin]); [left | right]; exists a; auto.
Qed.

Lemma is_true_role_eq (a b : user_role) :
  is_true (sql_eq user_role_eqb (Some a) (Some b)) = true <-> a = b.
Proof. destruct a, b; simpl; split; congruence. Qed.

Lemma sql_union_In (q1 q2 : list (option uuid)) (x : option uuid) :
  In x (sql_union q1 q2) <-> In x q1 \/ In x q2.
Proof. unfold sql_union. rewrite nodup_In. apply in_app_iff. Qed.

(** ** What the policies compute *)

(** A subquery on [users] sees the principal's own row only. *)

Lemma select_from_users (p : principal) (db : database) (u : users.row) :
  In u (select_from Users users_policies p db (users_rows db))
  <-> In u (users_rows db) /\ is_user p (users.id u).
Proof.
  unfold select_from, is_user. simpl. rewrite filter_In.
  unfold rls_using. simpl. rewrite orb_false_r.
  split; intros [Hin H]; split; auto.
  - apply is_true_uuid_eq in H. destruct H as (a & Hp & Hu). congruence.
  - apply is_true_uuid_eq. eauto.
Qed.

Lemma user_id_from_users_In (ro : user_role) (outer : uuid) (p : principal)
    (db : database) (a : uuid) :
  In (Some a) (user_id_from_users_where_role ro outer p db)
  <-> a = outer /\ exists u, In u (users_rows db) /\ is_user p (users.id u)
                             /\ users.role u = ro.
Proof.
  unfold user_id_from_users_where_role. rewrite in_map_iff. split.
  - intros (u & Ha & Hin). apply filter_In in Hin. destruct Hin as [Hin Hro].
    apply select_from_users in Hin. apply is_true_role_eq in Hro.
    split; [congruence | exists u; tauto].
  - intros (-> & u & Hin & Hu & Hro). exists u. split; [reflexivity|].
    apply filter_In. split.
    + apply select_from_users. auto.
    + apply is_true_role_eq. exact Hro.
Qed.

(** The "manage their own data" expression of a profile table: the principal
    is the row's user and has the role. *)

Lemma own_profile_expression (ro : user_role) (outer : uuid) (p : principal)
    (db : database) :
  is_true (sql_in N.eqb (auth.uid p) (user_id_from_users_where_role ro outer p db)) = true
  <-> is_user p outer /\ has_role db p ro.
Proof.
  rewrite sql_in_true. unfold has_role. split.
  - intros (a & Hp & Hin). apply user_id_from_users_In in Hin.
    destruct Hin as (-> & Hu). auto.
  - intros (Hp & Hu). exists outer. split; [exact Hp|].
    apply user_id_from_users_In. auto.
Qed.

(** ** Profile tables: organizations, charities, volunteers *)

Lemma profile_select (f : profile) (p : principal) (db : database)
    (e : row_of (profile_table f)) :
  can_select (profile_table f) p db e = is_true (authenticated p) || own_profile f p db e.
Proof.
  destruct f; unfold can_select, passes_using, rls_using, own_profile; simpl;
    now rewrite orb_false_r.
Qed.

Lemma profile_using (f : profile) (c : command) (p : principal) (db : database)
    (e : row_of (profile_table f)) :
  c <> SELECT -> passes_using c (profile_table f) p db e = own_profile f p db e.
Proof.
  intros Hc.
  destruct f, c; try congruence;
    unfold passes_using, rls_using, own_profile; simpl; now rewrite orb_false_r.
Qed.

Lemma profile_check (f : profile) (c : command) (p : principal) (db : database)
    (e : row_of (profile_table f)) :
  c <> SELECT -> passes_check c (profile_table f) p db e = own_profile f p db e.
Proof.
  intros Hc.
  destruct f, c; try congruence;
    unfold passes_check, rls_check, own_profile; simpl; now rewrite orb_false_r.
Qed.

Lemma own_profile_true (f : profile) (p : principal) (db : database)
    (e : row_of (profile_table f)) :
  own_profile f p db e = true
  <-> is_user p (profile_user_id f e) /\ has_role db p (profile_role f).
Proof. apply own_profile_expression. Qed.

Lemma profile_permitted (f : profile) (p : principal) (db : database)
    (w : write (row_of (profile_table f))) :
  permitted (profile_table f) p db w = forallb (own_profile f p db) (touched w).
Proof.
  destruct w as [new | old new | old]; simpl;
    unfold can_insert, can_update_row, can_update_to, can_delete;
    rewrite ?profile_select, ?profile_using, ?profile_check by discriminate.
  - now rewrite andb_true_r.
  - destruct (own_profile f p db old), (own_profile f p db new);
      now rewrite ?orb_true_r, ?andb_false_r.
  - destruct (own_profile f p db old); now rewrite ?orb_true_r, ?andb_false_r.
Qed.

(** C1, as amended: a write (insert, update or delete) of an Organization,
    Charity or Volunteer row by a principal is permitted if and only if the
    principal is the user of every row the write touches (the row found, and
    for an update the row put in its place) and has, in [users], the role of
    the row's family: donor for an organization, charity for a charity,
    volunteer for a volunteer.  No policy mentions the admin role, which
    gives no right to write. *)
Theorem profile_write_owner_with_role (f : profile) (p : principal) (db : database)
    (w : write (row_of (profile_table f))) :
  permitted (profile_table f) p db w = true
  <-> has_role db p (profile_role f)
      /\ forall e, In e (touched w) -> is_user p (profile_user_id f e).
Proof.
  rewrite profile_permitted, forallb_forall. split.
  - intros H. split.
    + destruct w as [new | old new | old];
        [ destruct (proj1 (own_profile_true f p db new)) as [_ Hr]
        | destruct (proj1 (own_profile_true f p db old)) as [_ Hr]
        | destruct (proj1 (own_profile_true f p db old)) as [_ Hr] ];
        try exact Hr; apply H; simpl; auto.
    + intros e He. apply H in He. now apply own_profile_true in He.
  - intros [Hr Hu] e He. apply own_profile_true. auto.
Qed.

(** C1, as stated, fails: Amal is an admin and not the user of the bakery's
    organization; the specification's rule lets her delete the row, the
    policies do not. *)
Lemma admin_cannot_write_profile :
  ~ (permitted Organizations (sample.signed_in 1%N) sample.db
       (deleting sample.bakery_shop) = true
     <-> spec_profile_writer sample.db (sample.signed_in 1%N) Organization
           sample.bakery_shop).
Proof.
  intros [_ H].
  assert (Hd : permitted Organizations (sample.signed_in 1%N) sample.db
                 (deleting sample.bakery_shop) = false) by (vm_compute; reflexivity).
  rewrite Hd in H. enough (false = true) by discriminate. apply H.
  right. exists sample.amal. repeat split. vm_compute. auto.
Qed.

(** ** users *)

(** C10: a read of a [users] row by a principal succeeds only when the
    principal's id is the row's id (and then it does): the only policy of
    [users] is "Users can read own data", so nobody, an admin included, reads
    another user's row, nor its role. *)
Theorem users_read_own_row_only (p : principal) (db : database) (u : users.row) :
  can_select Users p db u = true <-> is_user p (users.id u).
Proof.
  unfold can_select, passes_using, rls_using, is_user.
  cbn [relrowsecurity policies users_policies existsb applies polcmd command_eqb
       andb using_expression polqual].
  rewrite orb_false_r, is_true_uuid_eq. split.
  - intros (a & Hp & Hu). congruence.
  - intros Hp. eauto.
Qed.

(** ** pickups: writes *)

(** C2, as amended: no write of a Pickup row is permitted to any principal.
    Row security is enabled on [pickups] and its only policy is [FOR SELECT]:
    neither the assigned volunteer's user, nor the assigned charity's user,
    nor an admin may insert, update or delete a pickup, whatever the status of
    the donation. *)
Theorem pickup_write_denied (p : principal) (db : database) (w : write pickups.row) :
  permitted Pickups p db w = false.
Proof.
  destruct w as [new | old new | old]; simpl;
    unfold can_insert, can_update_row, can_update_to, can_delete,
           passes_check, passes_using, rls_check, rls_using; simpl.
  - reflexivity.
  - now rewrite andb_false_r.
  - now rewrite andb_false_r.
Qed.

(** C2, as stated, fails: Walid is the user of the volunteer assigned to the
    pickup, whose donation is assigned; the specification's rule lets him
    record the pickup's time, the policies do not. *)
Lemma assigned_volunteer_cannot_write_pickup :
  ~ (permitted Pickups (sample.signed_in 4%N) sample.db
       (updating (sample.handoff 1000%N) (sample.picked (sample.handoff 1000%N))) = true
     <-> spec_pickup_writer sample.db (sample.signed_in 4%N) (sample.handoff 1000%N)).
Proof.
  intros [_ H].
  enough (false = true) by discriminate.
  etransitivity; [| apply H].
  - vm_compute. reflexivity.
  - left. exists 4%N. split; [reflexivity|]. left.
    exists (sample.courier 30%N 4%N). repeat split. vm_compute. auto 10.
Qed.

(** ** donations: writes *)

Lemma is_true_Some_true (b : sql_bool) : is_true b = true <-> b = Some true.
Proof. destruct b as [[|]|]; simpl; split; congruence. Qed.

Lemma select_from_profile (f : profile) (p : principal) (db : database)
    (e : row_of (profile_table f)) :
  In e (select_from (profile_table f) (policies (profile_table f)) p db
          (rows (profile_table f) db))
  <-> In e (rows (profile_table f) db)
      /\ (authenticated p = Some true \/ own_profile f p db e = true).
Proof.
  pose proof (profile_select f p db e) as Hs.
  unfold can_select, passes_using in Hs. unfold select_from.
  rewrite <- is_true_Some_true, <- orb_true_iff, <- Hs.
  destruct f; simpl relrowsecurity; cbv iota; apply filter_In.
Qed.

(** A profile row whose user is the principal is seen by the principal exactly
    when [sees_own] holds. *)

Lemma select_from_own_profile (f : profile) (p : principal) (db : database)
    (e : row_of (profile_table f)) :
  is_user p (profile_user_id f e) ->
  (In e (select_from (profile_table f) (policies (profile_table f)) p db
           (rows (profile_table f) db))
   <-> In e (rows (profile_table f) db) /\ sees_own db p (profile_role f)).
Proof.
  intros Hu. rewrite select_from_profile, own_profile_true. unfold sees_own. tauto.
Qed.

Lemma own_donation_true (p : principal) (db : database) (d : donations.row) :
  own_donation p db d = true
  <-> sees_own db p donor /\ exists u, is_user p u /\ donation_owner db d u.
Proof.
  unfold own_donation. rewrite sql_in_true. split.
  - intros (a & Ha & Hin). injection Ha as <-.
    apply in_map_iff in Hin. destruct Hin as (o & Hid & Hin).
    injection Hid as Hid. apply filter_In in Hin. destruct Hin as [Hin Hu].
    apply is_true_uuid_eq in Hu. destruct Hu as (u & Ho & Hp).
    injection Ho as Ho.
    assert (Hpu : is_user p (profile_user_id Organization o)) by (simpl; congruence).
    apply (select_from_own_profile Organization p db o Hpu) in Hin.
    destruct Hin as [Hin Hsee]. split; [exact Hsee|].
    exists u. split; [exact Hp|]. exists o. auto.
  - intros (Hsee & u & Hp & o & Hin & Hid & Ho).
    exists (donations.organization_id d). split; [reflexivity|].
    apply in_map_iff. exists o. split; [congruence|].
    apply filter_In. split.
    + assert (Hpu : is_user p (profile_user_id Organization o))
        by (simpl; unfold is_user in *; congruence).
      apply (select_from_own_profile Organization p db o Hpu). auto.
    + apply is_true_uuid_eq. exists u. split; [congruence | exact Hp].
Qed.

Lemma donation_permitted (p : principal) (db : database) (w : write donations.row) :
  permitted Donations p db w = forallb (own_donation p db) (touched w).
Proof.
  assert (Hsel : forall d, can_select Donations p db d
                           = is_true (authenticated p) || own_donation p db d).
  { intros d. unfold can_select, passes_using, rls_using, own_donation. simpl.
    now rewrite orb_false_r. }
  assert (Hus : forall c d, c <> SELECT ->
                            passes_using c Donations p db d = own_donation p db d).
  { intros c d Hc. destruct c; try congruence;
      unfold passes_using, rls_using, own_donation; simpl; now rewrite orb_false_r. }
  assert (Hch : forall c d, c <> SELECT ->
                            passes_check c Donations p db d = own_donation p db d).
  { intros c d Hc. destruct c; try congruence;
      unfold passes_check, rls_check, own_donation; simpl; now rewrite orb_false_r. }
  destruct w as [new | old new | old]; simpl;
    unfold can_insert, can_update_row, can_update_to, can_delete;
    rewrite ?Hsel, ?Hus, ?Hch by discriminate.
  - now rewrite andb_true_r.
  - destruct (own_donation p db old), (own_donation p db new);
      now rewrite ?orb_true_r, ?andb_false_r.
  - destruct (own_donation p db old); now rewrite ?orb_true_r, ?andb_false_r.
Qed.

(** C4, as amended: a write of a Donation row by a principal is permitted if
    and only if the principal is the user of the organization that owns every
    row the write touches (the row found, and for an update the row put in its
    place), and sees that organization row, which it does when signed in or
    when it has the donor role.  No policy mentions the admin role, which
    gives no right to write a donation. *)
Theorem donation_write_owner_only (p : principal) (db : database)
    (w : write donations.row) :
  permitted Donations p db w = true
  <-> sees_own db p donor
      /\ exists u, is_user p u /\ forall d, In d (touched w) -> donation_owner db d u.
Proof.
  rewrite donation_permitted, forallb_forall. split.
  - intros H.
    assert (H' : forall d, In d (touched w) ->
                 sees_own db p donor /\ exists u, is_user p u /\ donation_owner db d u).
    { intros d Hd. apply own_donation_true. auto. }
    assert (Hne : exists d0, In d0 (touched w))
      by (destruct w; simpl; eauto).
    destruct Hne as (d0 & Hd0). destruct (H' d0 Hd0) as (Hsee & u & Hu & _).
    split; [exact Hsee|]. exists u. split; [exact Hu|].
    intros d Hd. destruct (H' d Hd) as (_ & u' & Hu' & Hown).
    unfold is_user in *. replace u with u' by congruence. exact Hown.
  - intros (Hsee & u & Hu & Hall) d Hd. apply own_donation_true. eauto.
Qed.

(** C4, as stated, fails: Amal is an admin and her user owns no organization;
    the specification's rule lets her update the bakery's donation, the
    policies do not. *)
Lemma admin_cannot_write_donation :
  ~ (permitted Donations (sample.signed_in 1%N) sample.db
       (updating (sample.bread 100%N (Some assigned))
                 (sample.bread 100%N (Some cancelled))) = true
     <-> spec_donation_writer sample.db (sample.signed_in 1%N)
           (sample.bread 100%N (Some assigned))).
Proof.
  intros [_ H].
  enough (false = true) by discriminate.
  etransitivity; [| apply H].
  - vm_compute. reflexivity.
  - right. exists sample.amal. repeat split. vm_compute. auto.
Qed.

(** ** pickups: reads *)

Lemma select_from_donations (p : principal) (db : database) (d : donations.row) :
  In d (select_from Donations donations_policies p db (donations_rows db))
  <-> In d (donations_rows db)
      /\ (authenticated p = Some true \/ own_donation p db d = true).
Proof.
  unfold select_from. simpl relrowsecurity. cbv iota. rewrite filter_In.
  unfold rls_using. simpl. fold (own_donation p db d).
  now rewrite orb_false_r, orb_true_iff, is_true_Some_true.
Qed.

Lemma uuid_eq_Some (a b : uuid) :
  is_true (sql_eq N.eqb (Some a) (Some b)) = true <-> a = b.
Proof. simpl. destruct (N.eqb_spec a b); split; congruence. Qed.

Lemma uuid_eq_column (a : uuid) (c : option uuid) :
  is_true (sql_eq N.eqb (Some a) c) = true <-> c = Some a.
Proof.
  rewrite is_true_uuid_eq. split.
  - intros (b & Ha & Hc). congruence.
  - intros ->. eauto.
Qed.

(** The three branches of the UNION, for the principal's own id. *)

Lemma volunteers_branch (p : principal) (db : database) (k : pickups.row) (u : uuid) :
  is_user p u ->
  (In (Some u)
      (map (fun v => Some (volunteers.user_id v))
         (filter (fun v => is_true (sql_eq N.eqb (Some (volunteers.id v))
                                                  (pickups.volunteer_id k)))
            (select_from Volunteers volunteers_policies p db (volunteers_rows db))))
   <-> pickup_volunteer db k u /\ sees_own db p volunteer).
Proof.
  intros Hu. rewrite in_map_iff. unfold pickup_volunteer. split.
  - intros (v & Hv & Hin). injection Hv as Hv. apply filter_In in Hin.
    destruct Hin as [Hin Hid]. apply uuid_eq_column in Hid.
    assert (Hpu : is_user p (profile_user_id Volunteer v)) by (simpl; congruence).
    apply (select_from_own_profile Volunteer p db v Hpu) in Hin.
    destruct Hin as [Hin Hsee]. split; [|exact Hsee]. exists v. auto.
  - intros ((v & Hin & Hid & Hv) & Hsee). exists v. split; [congruence|].
    apply filter_In. split; [|now apply uuid_eq_column].
    assert (Hpu : is_user p (profile_user_id Volunteer v)) by (simpl; congruence).
    apply (select_from_own_profile Volunteer p db v Hpu). auto.
Qed.

Lemma charities_branch (p : principal) (db : database) (k : pickups.row) (u : uuid) :
  is_user p u ->
  (In (Some u)
      (map (fun c => Some (charities.user_id c))
         (filter (fun c => is_true (sql_eq N.eqb (Some (charities.id c))
                                                  (pickups.charity_id k)))
            (select_from Charities charities_policies p db (charities_rows db))))
   <-> pickup_charity db k u /\ sees_own db p charity).
Proof.
  intros Hu. rewrite in_map_iff. unfold pickup_charity. split.
  - intros (c & Hc & Hin). injection Hc as Hc. apply filter_In in Hin.
    destruct Hin as [Hin Hid]. apply uuid_eq_column in Hid.
    assert (Hpu : is_user p (profile_user_id Charity c)) by (simpl; congruence).
    apply (select_from_own_profile Charity p db c Hpu) in Hin.
    destruct Hin as [Hin Hsee]. split; [|exact Hsee]. exists c. auto.
  - intros ((c & Hin & Hid & Hc) & Hsee). exists c. split; [congruence|].
    apply filter_In. split; [|now apply uuid_eq_column].
    assert (Hpu : is_user p (profile_user_id Charity c)) by (simpl; congruence).
    apply (select_from_own_profile Charity p db c Hpu). auto.
Qed.

Lemma organizations_branch (p : principal) (db : database) (k : pickups.row) (u : uuid) :
  is_user p u ->
  (In (Some u)
      (flat_map
         (fun o =>
            map (fun _ : donations.row => Some (organizations.user_id o))
              (filter (fun d =>
                         is_true (sql_eq N.eqb (Some (donations.organization_id d))
                                               (Some (organizations.id o)))
                         && is_true (sql_eq N.eqb (Some (donations.id d))
                                                  (Some (pickups.donation_id k))))
                 (select_from Donations donations_policies p db (donations_rows db))))
         (select_from Organizations organizations_policies p db (organizations_rows db)))
   <-> pickup_donor db k u /\ sees_own db p donor).
Proof.
  intros Hu. rewrite in_flat_map. unfold pickup_donor. split.
  - intros (o & Hino & Hin). apply in_map_iff in Hin.
    destruct Hin as (d & Ho & Hind). injection Ho as Ho.
    apply filter_In in Hind. destruct Hind as [Hind Hj].
    apply andb_true_iff in Hj. destruct Hj as [Hj Hid].
    apply uuid_eq_Some in Hj. apply uuid_eq_Some in Hid.
    apply select_from_donations in Hind. destruct Hind as [Hind _].
    assert (Hpu : is_user p (profile_user_id Organization o)) by (simpl; congruence).
    apply (select_from_own_profile Organization p db o Hpu) in Hino.
    destruct Hino as [Hino Hsee]. split; [|exact Hsee].
    exists d. repeat split; auto. exists o. auto.
  - intros ((d & Hind & Hid & o & Hino & Hj & Ho) & Hsee).
    exists o. split.
    + assert (Hpu : is_user p (profile_user_id Organization o)) by (simpl; congruence).
      apply (select_from_own_profile Organization p db o Hpu). auto.
    + apply in_map_iff. exists d. split; [congruence|].
      apply filter_In. split.
      * apply select_from_donations. split; [exact Hind|]. right.
        apply own_donation_true. split; [exact Hsee|].
        exists u. split; [exact Hu|]. exists o. auto.
      * apply andb_true_iff. split; apply uuid_eq_Some; congruence.
Qed.

(** C3, as amended: a read of a Pickup row by a principal succeeds if and
    only if the principal is the user of the assigned volunteer, of the
    assigned charity or of the organization that owns the pickup's donation,
    and sees that party's profile row (which it does when signed in, or when
    it has the party's role).  No policy mentions the admin role: an admin who
    is none of the three parties is denied. *)
Theorem pickup_read_parties_only (p : principal) (db : database) (k : pickups.row) :
  can_select Pickups p db k = true
  <-> exists u, is_user p u
      /\ ((pickup_volunteer db k u /\ sees_own db p volunteer)
          \/ (pickup_charity db k u /\ sees_own db p charity)
          \/ (pickup_donor db k u /\ sees_own db p donor)).
Proof.
  unfold can_select, passes_using, rls_using.
  cbn [relrowsecurity policies pickups_policies existsb applies polcmd command_eqb
       andb using_expression polqual].
  rewrite orb_false_r, sql_in_true. unfold pickup_parties.
  split; intros (u & Hu & H); exists u; (split; [exact Hu|]).
  - rewrite !sql_union_In in H. destruct H as [[H | H] | H].
    + left. now apply (volunteers_branch p db k u Hu).
    + right; left. now apply (charities_branch p db k u Hu).
    + right; right. now apply (organizations_branch p db k u Hu).
  - rewrite !sql_union_In. destruct H as [H | [H | H]].
    + left; left. now apply (volunteers_branch p db k u Hu).
    + left; right. now apply (charities_branch p db k u Hu).
    + right. now apply (organizations_branch p db k u Hu).
Qed.

(** C3, as stated, fails: Amal is an admin and is no party to the pickup; the
    specification's rule lets her read it, the policy does not. *)
Lemma admin_cannot_read_pickup :
  ~ (can_select Pickups (sample.signed_in 1%N) sample.db (sample.handoff 1000%N) = true
     <-> spec_pickup_reader sample.db (sample.signed_in 1%N) (sample.handoff 1000%N)).
Proof.
  intros [_ H].
  enough (false = true) by discriminate.
  etransitivity; [| apply H].
  - vm_compute. reflexivity.
  - right. exists sample.amal. repeat split. vm_compute. auto.
Qed.

(** ** Statements and the tables they change *)

Lemma rows_set_rows (t : table) (l : list (row_of t)) (db : database) :
  rows t (set_rows t l db) = l.
Proof. destruct t; reflexivity. Qed.

Lemma rows_set_rows_other (t t' : table) (l : list (row_of t')) (db : database) :
  t <> t' -> rows t (set_rows t' l db) = rows t db.
Proof. intros Hne. destruct t, t'; try reflexivity; congruence. Qed.

(** On a table whose policies are all [FOR SELECT], a client may write
    nothing. *)

Lemma select_only_no_write (t : table) (p : principal) (db : database) (r : row_of t) :
  select_only t = true ->
  can_insert t p db r = false
  /\ can_update_row t p db r = false
  /\ can_delete t p db r = false.
Proof.
  intros Hso.
  destruct t; try discriminate Hso;
    unfold can_insert, can_update_row, can_delete, passes_check, passes_using,
           rls_check, rls_using; simpl;
    rewrite ?andb_false_r; auto.
Qed.

(** A client's statement leaves such a table as it is. *)

Lemma exec_client_select_only (t : table) (p : principal) (q : statement)
    (db db' : database) :
  select_only t = true -> exec (client p) q db = Ok db' -> rows t db' = rows t db.
Proof.
  intros Hso H.
  destruct q as [t' new | t' i new | t' i]; simpl in H.
  - destruct (can_insert t' p db new) eqn:Hc; simpl in H; [|discriminate].
    destruct (has_key t' (pk t' new) db); [discriminate|].
    destruct (foreign_keys t' db new); simpl in H; [|discriminate].
    injection H as <-. apply rows_set_rows_other. intros <-.
    destruct (select_only_no_write t p db new Hso) as (Hi & _). congruence.
  - destruct (find_row t' i db) as [old|]; [|now injection H as <-].
    destruct (can_update_row t' p db old) eqn:Hc; simpl in H; [|now injection H as <-].
    destruct (can_update_to t' p db new); simpl in H; [|discriminate].
    destruct (negb (N.eqb (pk t' new) i) && has_key t' (pk t' new) db); [discriminate|].
    destruct (foreign_keys t' db new); simpl in H; [|discriminate].
    destruct (negb (N.eqb (pk t' new) i) && referenced t' i db); [discriminate|].
    injection H as <-. apply rows_set_rows_other. intros <-.
    destruct (select_only_no_write t p db old Hso) as (_ & Hu & _). congruence.
  - destruct (find_row t' i db) as [old|]; [|now injection H as <-].
    destruct (can_delete t' p db old) eqn:Hc; simpl in H; [|now injection H as <-].
    destruct (referenced t' i db); [discriminate|].
    injection H as <-. apply rows_set_rows_other. intros <-.
    destruct (select_only_no_write t p db old Hso) as (_ & _ & Hd). congruence.
Qed.

Lemma commit_client_select_only (t : table) (p : principal) (q : statement)
    (db : database) :
  select_only t = true -> rows t (commit (client p) q db) = rows t db.
Proof.
  intros Hso. unfold commit.
  destruct (exec (client p) q db) as [db'|e] eqn:H; [|reflexivity].
  now apply (exec_client_select_only t p q).
Qed.

Lemma run_clients_select_only (t : table) (log : list (principal * statement))
    (db : database) :
  select_only t = true -> rows t (run (by_clients log) db) = rows t db.
Proof.
  intros Hso. revert db.
  induction log as [|[p q] log IH]; intros db; simpl; [reflexivity|].
  rewrite IH. now apply commit_client_select_only.
Qed.

(** ** users: the role *)

(** C7: the role of a user never changes after the row is created, whatever
    the principals do: row security is enabled on [users] and its only policy
    is [FOR SELECT], so no statement of any principal, the user itself
    included, inserts, updates or deletes a row of [users]; after any sequence
    of principals' statements every user has the role it had. *)
Theorem user_role_immutable (log : list (principal * statement)) (db : database)
    (u : uuid) :
  role_of u (run (by_clients log) db) = role_of u db.
Proof.
  unfold role_of, find_row.
  now rewrite (run_clients_select_only Users log db).
Qed.

(** ** pickups: how many per donation *)

(** C6, as amended: the statements of principals never add a Pickup row
    (row security is enabled on [pickups], with a [FOR SELECT] policy only):
    from a state with at most one Pickup row per donation they lead only to
    states with at most one Pickup row per donation.  The schema itself has no
    uniqueness constraint on [donation_id]; a session exempt from row security
    can store a second pickup of a donation. *)
Theorem clients_keep_one_pickup_per_donation (log : list (principal * statement))
    (db : database) :
  one_pickup_per_donation db = true ->
  one_pickup_per_donation (run (by_clients log) db) = true.
Proof.
  unfold one_pickup_per_donation.
  change (pickups_rows (run (by_clients log) db))
    with (rows Pickups (run (by_clients log) db)).
  now rewrite (run_clients_select_only Pickups log db).
Qed.

Lemma clients_keep_one_pickup_per_donation_witness :
  one_pickup_per_donation sample.db = true
  /\ one_pickup_per_donation
       (run (by_clients
               [ (sample.signed_in 4%N, INSERT_INTO Pickups (sample.handoff 1001%N));
                 (sample.signed_in 3%N,
                  UPDATE_WHERE_ID Pickups 1000%N (sample.picked (sample.handoff 1000%N))) ])
            sample.db) = true.
Proof.
  split; [reflexivity|].
  apply (clients_keep_one_pickup_per_donation
           [ (sample.signed_in 4%N, INSERT_INTO Pickups (sample.handoff 1001%N));
             (sample.signed_in 3%N,
              UPDATE_WHERE_ID Pickups 1000%N (sample.picked (sample.handoff 1000%N))) ]
           sample.db).
  reflexivity.
Defined.

(** C6, as stated, fails: after the seed, a session exempt from row security
    inserts a second pickup of the donation 100, which is assigned; the state
    is reachable and has two active pickups of one donation. *)
Lemma two_active_pickups_of_one_donation :
  reachable sample.double_booked
  /\ one_active_pickup_per_donation sample.double_booked = false.
Proof.
  split.
  - exists [1; 2; 3; 4; 5]%N,
           (sample.seed ++ [(rls_exempt, INSERT_INTO Pickups (sample.handoff 1001%N))])%list.
    reflexivity.
  - reflexivity.
Qed.

(** ** donations: the status *)

Lemma find_row_replace_row (t : table) (i : uuid) (old new : row_of t)
    (l : list (row_of t)) :
  pk t new = i ->
  find (fun r => N.eqb (pk t r) i) l = Some old ->
  find (fun r => N.eqb (pk t r) i) (replace_row t i new l) = Some new.
Proof.
  intros Hnew. unfold replace_row.
  induction l as [|r l IH]; simpl; [discriminate|].
  destruct (N.eqb (pk t r) i) eqn:Hr.
  - intros _. now rewrite Hnew, N.eqb_refl.
  - rewrite Hr. exact IH.
Qed.

Lemma donation_owner_has_key (db : database) (d : donations.row) (u : uuid) :
  donation_owner db d u -> has_key Organizations (donations.organization_id d) db = true.
Proof.
  intros (o & Hin & Hid & _). unfold has_key. apply existsb_exists.
  exists o. split; [exact Hin|]. now apply N.eqb_eq.
Qed.

(** C5, as amended: the status of a Donation is a column like the others: an
    UPDATE by a principal who is permitted to write the row (the user of its
    organization) succeeds and stores the status it gives, whatever the
    current status and whatever the new one (any member of the enum, or
    NULL).  The schema has no transition rule, no trigger and no
    InvalidTransition error: the edges of the specification's state machine
    are not enforced. *)
Theorem donation_status_update_unconstrained (p : principal) (db : database)
    (d : donations.row) (st : option donation_status) :
  find_row Donations (donations.id d) db = Some d ->
  permitted Donations p db (updating d (with_status st d)) = true ->
  exists db',
    exec (client p) (UPDATE_WHERE_ID Donations (donations.id d) (with_status st d)) db
    = Ok db'
    /\ status_of (donations.id d) db' = Some st.
Proof.
  intros Hfind Hperm.
  assert (Hfk : foreign_keys Donations db (with_status st d) = true).
  { rewrite donation_permitted in Hperm. simpl in Hperm.
    apply andb_true_iff in Hperm. destruct Hperm as [Hold _].
    apply own_donation_true in Hold. destruct Hold as (_ & u & _ & Hown).
    simpl. now apply (donation_owner_has_key db d u). }
  simpl in Hperm. apply andb_true_iff in Hperm. destruct Hperm as [Hrow Hto].
  unfold exec. rewrite Hfind. unfold may_update_row, may_update_to.
  rewrite Hrow, Hto, Hfk.
  replace (N.eqb (pk Donations (with_status st d)) (donations.id d)) with true
    by (simpl; now rewrite N.eqb_refl).
  cbn [negb andb]. eexists. split; [reflexivity|].
  unfold status_of, find_row. rewrite rows_set_rows.
  unfold find_row in Hfind.
  now rewrite (find_row_replace_row Donations (donations.id d) d (with_status st d)
                 (rows Donations db) eq_refl Hfind).
Qed.

Lemma donation_status_update_unconstrained_witness :
  exists db',
    exec (client (sample.signed_in 2%N))
         (UPDATE_WHERE_ID Donations 100%N (sample.bread 100%N (Some pending)))
         sample.delivered_db = Ok db'
    /\ status_of 100%N db' = Some (Some pending).
Proof.
  apply (donation_status_update_unconstrained (sample.signed_in 2%N) sample.delivered_db
           (sample.bread 100%N (Some delivered)) (Some pending)).
  - reflexivity.
  - reflexivity.
Defined.

(** C5, as stated, fails: the donation 100 is delivered, a terminal state of
    the specification's machine; Dalia, the user of its organization, updates
    its status to pending; the statement succeeds and the status is pending,
    though delivered -> pending is no edge of the machine. *)
Lemma delivered_donation_back_to_pending :
  status_of 100%N sample.delivered_db = Some (Some delivered)
  /\ spec_edge delivered pending = false
  /\ exists db',
       exec (client (sample.signed_in 2%N))
            (UPDATE_WHERE_ID Donations 100%N (sample.bread 100%N (Some pending)))
            sample.delivered_db = Ok db'
       /\ status_of 100%N db' = Some (Some pending).
Proof.
  split; [reflexivity|]. split; [reflexivity|].
  eexists. split; reflexivity.
Qed.

(** ** Primary keys *)

Section Keys.
Variable t : table.

Lemma absent_key (k : uuid) (db : database) :
has_key t k db = false -> ~ In k (map (pk t) (rows t db)).
Proof.
unfold has_key. intros Hex Hin. apply in_map_iff in Hin.
destruct Hin as (r & Hk & Hin).
assert (Ht : existsb (fun r => N.eqb (pk t r) k) (rows t db) = true).
{ apply existsb_exists. exists r. split; [exact Hin | now apply N.eqb_eq]. }
congruence.
Qed.

Lemma NoDup_keys_insert (new : row_of t) (l : list (row_of t)) :
NoDup (map (pk t) l) -> ~ In (pk t new) (map (pk t) l) ->
NoDup (map (pk t) (l ++ [new])).
Proof.
intros Hnd Hfresh. rewrite map_app. simpl.
apply NoDup_app; [exact Hnd | repeat constructor; intros [] | ].
intros k Hk [<- | []]. contradiction.
Qed.

Lemma NoDup_keys_remove (i : uuid) (l : list (row_of t)) :
NoDup (map (pk t) l) -> NoDup (map (pk t) (remove_row t i l)).
Proof.
unfold remove_row. induction l as [|r l IH]; simpl; [auto|].
intros Hnd. inversion Hnd as [|k ks Hnotin Hnd']; subst.
destruct (negb (N.eqb (pk t r) i)); simpl; [|auto].
constructor; [|auto].
intros Hin. apply Hnotin. apply in_map_iff in Hin.
destruct Hin as (r' & Hk & Hin). apply filter_In in Hin.
apply in_map_iff. exists r'. tauto.
Qed.

Lemma keys_replaced_same (i : uuid) (new : row_of t) (l : list (row_of t)) :
pk t new = i -> map (pk t) (replace_row t i new l) = map (pk t) l.
Proof.
intros Hnew. unfold replace_row. rewrite map_map. apply map_ext.
intros r. destruct (N.eqb_spec (pk t r) i); congruence.
Qed.

Lemma keys_replaced_In (i : uuid) (new : row_of t) (l : list (row_of t)) (k : uuid) :
In k (map (pk t) (replace_row t i new l)) ->
In k (map (pk t) l) \/ (k = pk t new /\ In i (map (pk t) l)).
Proof.
unfold replace_row. rewrite map_map, in_map_iff.
intros (r & Hk & Hin). destruct (N.eqb_spec (pk t r) i) as [Hr|Hr].
- right. split; [congruence|]. apply in_map_iff. eauto.
- left. apply in_map_iff. eauto.
Qed.

Lemma NoDup_keys_replaced (i : uuid) (new : row_of t) (l : list (row_of t)) :
NoDup (map (pk t) l) -> ~ In (pk t new) (map (pk t) l) ->
NoDup (map (pk t) (replace_row t i new l)).
Proof.
induction l as [|r l IH]; [constructor|].
intros Hnd Hfresh. inversion Hnd as [|k ks Hnotin Hnd']; subst.
assert (Hfresh' : ~ In (pk t new) (map (pk t) l)) by (simpl in Hfresh; tauto).
assert (Hne : pk t r <> pk t new) by (intros He; apply Hfresh; now left).
change (NoDup (pk t (if N.eqb (pk t r) i then new else r)
                 :: map (pk t) (replace_row t i new l))).
constructor; [|auto].
intros Hin. apply keys_replaced_In in Hin.
destruct (N.eqb_spec (pk t r) i) as [Hr|Hr]; destruct Hin as [Hin | [Hk Hin]];
  try tauto; congruence.
Qed.
End Keys.

Lemma table_eq_dec (t t' : table) : {t = t'} + {t <> t'}.
Proof. decide equality. Qed.

(** A statement that succeeds keeps the primary keys of every table
    distinct. *)

Lemma exec_unique_keys (s : session) (q : statement) (db db' : database) :
  exec s q db = Ok db' ->
  (forall t, unique_keys t db) -> forall t, unique_keys t db'.
Proof.
  intros H Hall t. unfold unique_keys in *.
  destruct q as [t' new | t' i new | t' i]; simpl in H.
  - destruct (may_insert s t' db new); simpl in H; [|discriminate].
    destruct (has_key t' (pk t' new) db) eqn:Hkey; [discriminate|].
    destruct (foreign_keys t' db new); simpl in H; [|discriminate].
    injection H as <-.
    destruct (table_eq_dec t t') as [->|Hne];
      [rewrite rows_set_rows | now rewrite rows_set_rows_other].
    apply NoDup_keys_insert; [apply Hall | now apply absent_key].
  - destruct (find_row t' i db) as [old|]; [|injection H as <-; apply Hall].
    destruct (may_update_row s t' db old); simpl in H; [|injection H as <-; apply Hall].
    destruct (may_update_to s t' db new); simpl in H; [|discriminate].
    destruct (negb (N.eqb (pk t' new) i) && has_key t' (pk t' new) db) eqn:Hkey;
      [discriminate|].
    destruct (foreign_keys t' db new); simpl in H; [|discriminate].
    destruct (negb (N.eqb (pk t' new) i) && referenced t' i db); [discriminate|].
    injection H as <-.
    destruct (table_eq_dec t t') as [->|Hne];
      [rewrite rows_set_rows | now rewrite rows_set_rows_other].
    destruct (N.eqb_spec (pk t' new) i) as [Heq|Hneq].
    + rewrite (keys_replaced_same t' i new (rows t' db) Heq). apply Hall.
    + simpl in Hkey. apply NoDup_keys_replaced; [apply Hall | now apply absent_key].
  - destruct (find_row t' i db) as [old|]; [|injection H as <-; apply Hall].
    destruct (may_delete s t' db old); simpl in H; [|injection H as <-; apply Hall].
    destruct (referenced t' i db); [discriminate|].
    injection H as <-.
    destruct (table_eq_dec t t') as [->|Hne];
      [rewrite rows_set_rows | now rewrite rows_set_rows_other].
    apply NoDup_keys_remove, Hall.
Qed.

Lemma run_unique_keys (log : list (session * statement)) (db : database) :
  (forall t, unique_keys t db) -> forall t, unique_keys t (run log db).
Proof.
  revert db. induction log as [|[s q] log IH]; intros db Hall; simpl; [exact Hall|].
  apply IH. unfold commit.
  destruct (exec s q db) as [db'|e] eqn:H; [|exact Hall].
  now apply (exec_unique_keys s q db).
Qed.

Lemma reachable_unique_keys (db : database) (t : table) :
  reachable db -> unique_keys t db.
Proof.
  intros (au & log & ->). apply run_unique_keys.
  intros t'. destruct t'; constructor.
Qed.

(** ** impact_metrics: the key *)

(** C8, as amended: the rows of [impact_metrics] are keyed by [id], their
    primary key: in every state the database can reach there is at most one
    row for an id.  The [date] column is [NOT NULL] and nothing more: the
    schema has no uniqueness constraint on it, and no operation that merges
    the deliveries of a day into one row. *)
Theorem impact_metrics_keyed_by_id (db : database) :
  reachable db -> unique_keys Impact_metrics db.
Proof. apply reachable_unique_keys. Qed.

Lemma impact_metrics_keyed_by_id_witness :
  unique_keys Impact_metrics sample.double_counted.
Proof.
  apply (impact_metrics_keyed_by_id sample.double_counted).
  exists [1; 2; 3; 4; 5]%N,
         (sample.seed
            ++ [ (rls_exempt, INSERT_INTO Impact_metrics (sample.tally 500%N 7%Z));
                 (rls_exempt, INSERT_INTO Impact_metrics (sample.tally 501%N 7%Z)) ])%list.
  reflexivity.
Defined.

(** C8, as stated, fails: after the seed, a session exempt from row security
    inserts two rows of metrics for the day 7, with the ids 500 and 501; the
    state is reachable and holds two rows for one date. *)
Lemma two_metrics_rows_for_one_date :
  reachable sample.double_counted
  /\ one_metric_per_date sample.double_counted = false
  /\ map impact_metrics.date (impact_metrics_rows sample.double_counted) = [7%Z; 7%Z].
Proof.
  split; [|split; reflexivity].
  exists [1; 2; 3; 4; 5]%N,
         (sample.seed
            ++ [ (rls_exempt, INSERT_INTO Impact_metrics (sample.tally 500%N 7%Z));
                 (rls_exempt, INSERT_INTO Impact_metrics (sample.tally 501%N 7%Z)) ])%list.
  reflexivity.
Qed.

(** ** Enum types *)

Lemma donation_status_in_out (s : donation_status) :
  donation_status_in (donation_status_out s) = Some s.
Proof. destruct s; reflexivity. Qed.

Lemma donation_status_out_in (l : text) (s : donation_status) :
  donation_status_in l = Some s -> donation_status_out s = l.
Proof.
  unfold donation_status_in.
  repeat match goal with
         | |- context [String.eqb l ?c] => destruct (String.eqb_spec l c) as [->|_]
         end;
    intros H; try discriminate; injection H as <-; reflexivity.
Qed.

Lemma donation_status_out_label (s : donation_status) :
  In (donation_status_out s) donation_status_labels.
Proof. destruct s; simpl; auto 6. Qed.

Lemma food_type_in_out (f : food_type) : food_type_in (food_type_out f) = Some f.
Proof. destruct f; reflexivity. Qed.

Lemma food_type_out_in (l : text) (f : food_type) :
  food_type_in l = Some f -> food_type_out f = l.
Proof.
  unfold food_type_in.
  repeat match goal with
         | |- context [String.eqb l ?c] => destruct (String.eqb_spec l c) as [->|_]
         end;
    intros H; try discriminate; injection H as <-; reflexivity.
Qed.

Lemma food_type_out_label (f : food_type) : In (food_type_out f) food_type_labels.
Proof. destruct f; simpl; auto 6. Qed.

(** C9, as amended: the enum value sets are closed.  A text is accepted as a
    donation status exactly when it is one of pending, assigned, picked_up,
    delivered, cancelled, and as a food type exactly when it is one of
    prepared_meals, groceries, produce, bakery, other; a member is written out
    as one of these labels and read back as itself.  Every stored food type is
    one of the five, and every stored donation status is one of the five or
    NULL: the [status] column has a default and no [NOT NULL]. *)
Theorem enum_values_closed :
  (forall l, In l donation_status_labels <-> exists s, donation_status_in l = Some s)
  /\ (forall l, In l food_type_labels <-> exists f, food_type_in l = Some f)
  /\ (forall s, donation_status_in (donation_status_out s) = Some s)
  /\ (forall f, food_type_in (food_type_out f) = Some f)
  /\ (forall db d, In d (donations_rows db) ->
        In (food_type_out (donations.food_type d)) food_type_labels
        /\ (donations.status d = None
            \/ exists s, donations.status d = Some s
                         /\ In (donation_status_out s) donation_status_labels)).
Proof.
  split; [|split; [|split; [|split]]].
  - intros l. split.
    + intros Hin. simpl in Hin.
      destruct Hin as [<- | [<- | [<- | [<- | [<- | []]]]]]; eexists; reflexivity.
    + intros (s & Hs). apply donation_status_out_in in Hs. subst l.
      apply donation_status_out_label.
  - intros l. split.
    + intros Hin. simpl in Hin.
      destruct Hin as [<- | [<- | [<- | [<- | [<- | []]]]]]; eexists; reflexivity.
    + intros (f & Hf). apply food_type_out_in in Hf. subst l.
      apply food_type_out_label.
  - apply donation_status_in_out.
  - apply food_type_in_out.
  - intros db d _. split; [apply food_type_out_label|].
    destruct (donations.status d) as [s|]; [right | now left].
    exists s. split; [reflexivity | apply donation_status_out_label].
Qed.

(** C9, as stated, fails: Dalia inserts a donation of her organization with a
    NULL status; the statement succeeds, and the stored status of the donation
    101 is none of the five members. *)
Lemma donation_stored_with_null_status :
  exists db',
    exec (client (sample.signed_in 2%N))
         (INSERT_INTO Donations (sample.bread 101%N None)) sample.db = Ok db'
    /\ status_of 101%N db' = Some None
    /\ ~ (exists s, status_of 101%N db' = Some (Some s)).
Proof.
  eexists. split; [reflexivity|]. split; [reflexivity|].
  intros (s & Hs). vm_compute in Hs. discriminate.
Qed.

(** ** The policies at work on the small database *)

(** Dalia, a donor, may update her organization and post a donation for it;
    Chadi, a charity, may do neither. *)

Example dalia_manages_her_organization :
  permitted Organizations (sample.signed_in 2%N) sample.db
    (updating sample.bakery_shop sample.bakery_shop) = true
  /\ permitted Donations (sample.signed_in 2%N) sample.db
       (inserting (sample.bread 101%N (Some pending))) = true
  /\ permitted Organizations (sample.signed_in 3%N) sample.db
       (updating sample.bakery_shop sample.bakery_shop) = false
  /\ permitted Donations (sample.signed_in 3%N) sample.db
       (inserting (sample.bread 101%N (Some pending))) = false.
Proof. repeat split; reflexivity. Qed.

(** The pickup is read by the donor, the charity and the assigned volunteer,
    and by nobody else. *)

Example pickup_readers :
  map (fun u => can_select Pickups (sample.signed_in u) sample.db (sample.handoff 1000%N))
      [1; 2; 3; 4; 5]%N
  = [false; true; true; true; false]
  /\ can_select Pickups sample.anonymous sample.db (sample.handoff 1000%N) = false.
Proof. split; reflexivity. Qed.

(** Walid cannot make himself an admin: the statement affects no row. *)

Example walid_stays_volunteer :
  exec (client (sample.signed_in 4%N))
       (UPDATE_WHERE_ID Users 4%N
          {| users.id := 4%N; users.full_name := "Walid"; users.phone := None;
             users.role := admin; users.created_at := None; users.updated_at := None |})
       sample.db = Ok sample.db
  /\ role_of 4%N sample.db = Some volunteer.
Proof. split; reflexivity. Qed.

(** * Further properties of the schema and its policies *)

(** ** Reads *)

Lemma donation_select (p : principal) (db : database) (d : donations.row) :
  can_select Donations p db d = is_true (authenticated p) || own_donation p db d.
Proof.
  unfold can_select, passes_using, rls_using, own_donation. simpl.
  now rewrite orb_false_r.
Qed.

(** X1: a row of [organizations], [charities] or [volunteers] is read by
    every signed-in principal ("visible to authenticated users"), and besides
    by its own user when that user has the role of the table ("manage their
    own data" is a policy for all commands, SELECT included); by nobody
    else. *)
Theorem profile_read_authenticated_or_owner (f : profile) (p : principal)
    (db : database) (e : row_of (profile_table f)) :
  can_select (profile_table f) p db e = true
  <-> authenticated p = Some true
      \/ (is_user p (profile_user_id f e) /\ has_role db p (profile_role f)).
Proof.
  now rewrite profile_select, orb_true_iff, is_true_Some_true, own_profile_true.
Qed.

(** X2: a donation is read by every signed-in principal, and besides by the
    user of the organization that owns it when that user has the donor role
    (the role lets the user see its organization row without being signed
    in); by nobody else. *)
Theorem donation_read_authenticated_or_owner (p : principal) (db : database)
    (d : donations.row) :
  can_select Donations p db d = true
  <-> authenticated p = Some true
      \/ (has_role db p donor /\ exists u, is_user p u /\ donation_owner db d u).
Proof.
  rewrite donation_select, orb_true_iff, is_true_Some_true, own_donation_true.
  unfold sees_own. tauto.
Qed.

(** X3: [impact_metrics] is read-only for principals: a row is read exactly
    by the signed-in principals, and no sequence of principals' statements
    changes the table. *)
Theorem impact_metrics_read_only (p : principal) (db : database) :
  (forall m, can_select Impact_metrics p db m = true <-> authenticated p = Some true)
  /\ (forall log, impact_metrics_rows (run (by_clients log) db) = impact_metrics_rows db).
Proof.
  split.
  - intros m. unfold can_select, passes_using, rls_using. simpl.
    now rewrite orb_false_r, is_true_Some_true.
  - intros log. now apply (run_clients_select_only Impact_metrics log db).
Qed.

Lemma forallb_touched_false {R : Type} (f : R -> bool) (w : write R) :
  (forall r, f r = false) -> forallb f (touched w) = false.
Proof. intros Hf. destruct w; simpl; now rewrite Hf. Qed.

Lemma no_uid_no_own_profile (f : profile) (p : principal) (db : database)
    (e : row_of (profile_table f)) :
  auth.uid p = None -> own_profile f p db e = false.
Proof.
  intros Hu. destruct (own_profile f p db e) eqn:H; [|reflexivity].
  apply own_profile_true in H. destruct H as [H _]. unfold is_user in H. congruence.
Qed.

Lemma no_uid_no_own_donation (p : principal) (db : database) (d : donations.row) :
  auth.uid p = None -> own_donation p db d = false.
Proof.
  intros Hu. destruct (own_donation p db d) eqn:H; [|reflexivity].
  apply own_donation_true in H. destruct H as (_ & u & H & _).
  unfold is_user in H. congruence.
Qed.

Lemma select_only_permitted (t : table) (p : principal) (db : database)
    (w : write (row_of t)) :
  select_only t = true -> permitted t p db w = false.
Proof.
  intros Hso. destruct w as [new | old new | old]; simpl.
  - now destruct (select_only_no_write t p db new Hso).
  - destruct (select_only_no_write t p db old Hso) as (_ & -> & _). reflexivity.
  - now destruct (select_only_no_write t p db old Hso) as (_ & _ & ->).
Qed.

(** X4: a principal without a subject ([auth.uid()] is NULL) writes no row of
    any table, and when its role claim is not 'authenticated' either (the
    anonymous key) it reads no row of any table. *)
Theorem anonymous_gets_nothing (p : principal) (db : database) :
  auth.uid p = None ->
  (forall t w, permitted t p db w = false)
  /\ (authenticated p <> Some true -> forall t r, can_select t p db r = false).
Proof.
  intros Hu. split.
  - intros t w. destruct t;
      try (apply select_only_permitted; reflexivity).
    + rewrite (profile_permitted Organization). apply forallb_touched_false.
      intros r. now apply (no_uid_no_own_profile Organization).
    + rewrite (profile_permitted Charity). apply forallb_touched_false.
      intros r. now apply (no_uid_no_own_profile Charity).
    + rewrite (profile_permitted Volunteer). apply forallb_touched_false.
      intros r. now apply (no_uid_no_own_profile Volunteer).
    + rewrite donation_permitted. apply forallb_touched_false.
      intros r. now apply no_uid_no_own_donation.
  - intros Hna t r.
    assert (Ha : is_true (authenticated p) = false).
    { destruct (is_true (authenticated p)) eqn:H; [|reflexivity].
      apply is_true_Some_true in H. contradiction. }
    destruct t.
    + unfold can_select, passes_using, rls_using.
      cbn [relrowsecurity policies users_policies existsb applies polcmd
           command_eqb andb using_expression polqual].
      now rewrite Hu.
    + rewrite (profile_select Organization), Ha.
      now apply (no_uid_no_own_profile Organization).
    + rewrite (profile_select Charity), Ha.
      now apply (no_uid_no_own_profile Charity).
    + rewrite (profile_select Volunteer), Ha.
      now apply (no_uid_no_own_profile Volunteer).
    + rewrite donation_select, Ha. now apply no_uid_no_own_donation.
    + unfold can_select, passes_using, rls_using.
      cbn [relrowsecurity policies pickups_policies existsb applies polcmd
           command_eqb andb using_expression polqual].
      rewrite orb_false_r.
      destruct (is_true (sql_in N.eqb (auth.uid p) (pickup_parties p db r))) eqn:H;
        [|reflexivity].
      apply sql_in_true in H. destruct H as (a & H & _). congruence.
    + unfold can_select, passes_using, rls_using.
      cbn [relrowsecurity policies impact_metrics_policies existsb applies polcmd
           command_eqb andb using_expression polqual].
      now rewrite Ha.
Qed.

Lemma anonymous_gets_nothing_witness :
  (forall t w, permitted t sample.anonymous sample.db w = false)
  /\ (authenticated sample.anonymous <> Some true ->
      forall t r, can_select t sample.anonymous sample.db r = false).
Proof.
  apply (anonymous_gets_nothing sample.anonymous sample.db). reflexivity.
Defined.

(** ** Foreign keys *)

Lemma auth_users_set_rows (t : table) (l : list (row_of t)) (db : database) :
  auth_users (set_rows t l db) = auth_users db.
Proof. destruct t; reflexivity. Qed.

Lemma has_key_set_rows (T t : table) (k : uuid) (l : list (row_of t)) (db : database) :
  T <> t -> has_key T k (set_rows t l db) = has_key T k db.
Proof. intros Hne. unfold has_key. now rewrite rows_set_rows_other. Qed.

(** The foreign keys of a row still hold in a state that keeps [auth.users]
    and the keys the row points to. *)

Lemma foreign_keys_stable (db db' : database) (t : table) (r : row_of t) :
  auth_users db' = auth_users db ->
  (forall T k, points_to t r T k = true ->
               has_key T k db = true -> has_key T k db' = true) ->
  foreign_keys t db r = true -> foreign_keys t db' r = true.
Proof.
  intros Hau Hkeep. destruct t; simpl in *.
  - now rewrite Hau.
  - apply (Hkeep Users). apply N.eqb_refl.
  - apply (Hkeep Users). apply N.eqb_refl.
  - apply (Hkeep Users). apply N.eqb_refl.
  - apply (Hkeep Organizations). apply N.eqb_refl.
  - rewrite !andb_true_iff. intros [[Hd Hc] Hv]. repeat split.
    + apply (Hkeep Donations); [apply N.eqb_refl | exact Hd].
    + destruct (pickups.charity_id r) as [c|]; simpl in *; [|reflexivity].
      apply (Hkeep Charities); [now rewrite N.eqb_refl | exact Hc].
    + destruct (pickups.volunteer_id r) as [v|]; simpl in *; [|reflexivity].
      apply (Hkeep Volunteers); [now rewrite N.eqb_refl | exact Hv].
  - auto.
Qed.

(** A key that a stored row points to is [referenced]. *)

Lemma referenced_points_to (db : database) (t : table) (r : row_of t)
    (T : table) (k : uuid) :
  In r (rows t db) -> points_to t r T k = true -> referenced T k db = true.
Proof.
  intros Hin Hp.
  destruct t, T; simpl in Hp; try discriminate; simpl in *;
    rewrite ?orb_true_iff;
    try (apply existsb_exists; exists r; split; assumption).
  - left; left. apply existsb_exists. exists r. split; assumption.
  - left; right. apply existsb_exists. exists r. split; assumption.
  - right. apply existsb_exists. exists r. split; assumption.
Qed.

(** No table references itself. *)

Lemma no_self_reference (t : table) (r : row_of t) (k : uuid) :
  points_to t r t k = false.
Proof. destruct t; reflexivity. Qed.

Lemma has_key_replace_row (t : table) (i k : uuid) (new : row_of t)
    (l : list (row_of t)) :
  k <> i \/ pk t new = i ->
  existsb (fun r => N.eqb (pk t r) k) l = true ->
  existsb (fun r => N.eqb (pk t r) k) (replace_row t i new l) = true.
Proof.
  intros Hk Hex. apply existsb_exists in Hex. destruct Hex as (r & Hin & Hr).
  apply N.eqb_eq in Hr. apply existsb_exists. unfold replace_row.
  exists (if N.eqb (pk t r) i then new else r). split.
  - apply in_map_iff. exists r. auto.
  - destruct (N.eqb_spec (pk t r) i) as [Hi|Hi]; apply N.eqb_eq;
      [destruct Hk; congruence | exact Hr].
Qed.

Lemma has_key_remove_row (t : table) (i k : uuid) (l : list (row_of t)) :
  k <> i ->
  existsb (fun r => N.eqb (pk t r) k) l = true ->
  existsb (fun r => N.eqb (pk t r) k) (remove_row t i l) = true.
Proof.
  intros Hk Hex. apply existsb_exists in Hex. destruct Hex as (r & Hin & Hr).
  apply existsb_exists. exists r. split; [|exact Hr].
  apply filter_In. split; [exact Hin|].
  apply N.eqb_eq in Hr. apply negb_true_iff. apply N.eqb_neq. congruence.
Qed.

Lemma has_key_insert_row (t : table) (k : uuid) (new : row_of t)
    (l : list (row_of t)) :
  existsb (fun r => N.eqb (pk t r) k) l = true ->
  existsb (fun r => N.eqb (pk t r) k) (l ++ [new]) = true.
Proof. intros Hex. rewrite existsb_app, Hex. reflexivity. Qed.

(** A row that was stored keeps its foreign keys through an UPDATE that keeps
    the key of its row, or changes a key that nothing points to. *)

Lemma stored_row_after_update (db : database) (t t' : table) (r : row_of t)
    (i : uuid) (new : row_of t') :
  In r (rows t db) -> foreign_keys t db r = true ->
  negb (N.eqb (pk t' new) i) && referenced t' i db = false ->
  foreign_keys t (set_rows t' (replace_row t' i new (rows t' db)) db) r = true.
Proof.
  intros Hin Hfk Href. apply (foreign_keys_stable db); [apply auth_users_set_rows | | exact Hfk].
  intros T k Hp Hk. destruct (table_eq_dec T t') as [->|Hne];
    [|now rewrite has_key_set_rows].
  unfold has_key in *. rewrite rows_set_rows.
  apply has_key_replace_row; [|exact Hk].
  destruct (N.eqb_spec (pk t' new) i) as [Hi|Hi]; [now right | left].
  simpl in Href. intros ->.
  rewrite (referenced_points_to db t r t' i Hin Hp) in Href. discriminate.
Qed.

Lemma stored_row_after_delete (db : database) (t t' : table) (r : row_of t)
    (i : uuid) :
  In r (rows t db) -> foreign_keys t db r = true ->
  referenced t' i db = false ->
  foreign_keys t (set_rows t' (remove_row t' i (rows t' db)) db) r = true.
Proof.
  intros Hin Hfk Href. apply (foreign_keys_stable db); [apply auth_users_set_rows | | exact Hfk].
  intros T k Hp Hk. destruct (table_eq_dec T t') as [->|Hne];
    [|now rewrite has_key_set_rows].
  unfold has_key in *. rewrite rows_set_rows.
  apply has_key_remove_row; [|exact Hk].
  intros ->. rewrite (referenced_points_to db t r t' i Hin Hp) in Href. discriminate.
Qed.

Lemma stored_row_after_insert (db : database) (t t' : table) (r : row_of t)
    (new : row_of t') :
  foreign_keys t db r = true ->
  foreign_keys t (set_rows t' (rows t' db ++ [new]) db) r = true.
Proof.
  intros Hfk. apply (foreign_keys_stable db); [apply auth_users_set_rows | | exact Hfk].
  intros T k _ Hk. destruct (table_eq_dec T t') as [->|Hne];
    [|now rewrite has_key_set_rows].
  unfold has_key in *. rewrite rows_set_rows. now apply has_key_insert_row.
Qed.

(** The row an UPDATE writes points to no row of its own table, so that its
    foreign keys, checked before the statement, hold after it. *)

Lemma new_row_after_update (db : database) (t : table) (i : uuid) (new : row_of t) :
  foreign_keys t db new = true ->
  foreign_keys t (set_rows t (replace_row t i new (rows t db)) db) new = true.
Proof.
  intros Hfk. apply (foreign_keys_stable db); [apply auth_users_set_rows | | exact Hfk].
  intros T k Hp Hk. destruct (table_eq_dec T t) as [->|Hne];
    [|now rewrite has_key_set_rows].
  rewrite no_self_reference in Hp. discriminate.
Qed.

Lemma exec_referential_integrity (s : session) (q : statement) (db db' : database) :
  exec s q db = Ok db' -> referential_integrity db -> referential_integrity db'.
Proof.
  intros H Hri t r Hin.
  destruct q as [t' new | t' i new | t' i]; simpl in H.
  - destruct (may_insert s t' db new); simpl in H; [|discriminate].
    destruct (has_key t' (pk t' new) db); [discriminate|].
    destruct (foreign_keys t' db new) eqn:Hfk; simpl in H; [|discriminate].
    injection H as <-. apply stored_row_after_insert.
    destruct (table_eq_dec t t') as [->|Hne].
    + rewrite rows_set_rows in Hin. apply in_app_iff in Hin.
      destruct Hin as [Hin | [<- | []]]; [now apply Hri | exact Hfk].
    + rewrite rows_set_rows_other in Hin by exact Hne. now apply Hri.
  - destruct (find_row t' i db) as [old|]; [|injection H as <-; now apply Hri].
    destruct (may_update_row s t' db old); simpl in H;
      [|injection H as <-; now apply Hri].
    destruct (may_update_to s t' db new); simpl in H; [|discriminate].
    destruct (negb (N.eqb (pk t' new) i) && has_key t' (pk t' new) db);
      [discriminate|].
    destruct (foreign_keys t' db new) eqn:Hfk; simpl in H; [|discriminate].
    destruct (negb (N.eqb (pk t' new) i) && referenced t' i db) eqn:Href;
      [discriminate|].
    injection H as <-.
    destruct (table_eq_dec t t') as [->|Hne].
    + rewrite rows_set_rows in Hin. unfold replace_row in Hin.
      apply in_map_iff in Hin. destruct Hin as (r0 & Hr & Hin0).
      destruct (N.eqb (pk t' r0) i).
      * subst r. now apply new_row_after_update.
      * subst r0. apply stored_row_after_update; auto.
    + rewrite rows_set_rows_other in Hin by exact Hne.
      apply stored_row_after_update; auto.
  - destruct (find_row t' i db) as [old|]; [|injection H as <-; now apply Hri].
    destruct (may_delete s t' db old); simpl in H;
      [|injection H as <-; now apply Hri].
    destruct (referenced t' i db) eqn:Href; [discriminate|].
    injection H as <-.
    destruct (table_eq_dec t t') as [->|Hne].
    + rewrite rows_set_rows in Hin. unfold remove_row in Hin.
      apply filter_In in Hin. destruct Hin as [Hin _].
      apply stored_row_after_delete; auto.
    + rewrite rows_set_rows_other in Hin by exact Hne.
      apply stored_row_after_delete; auto.
Qed.

Lemma run_referential_integrity (log : list (session * statement)) (db : database) :
  referential_integrity db -> referential_integrity (run log db).
Proof.
  revert db. induction log as [|[s q] log IH]; intros db Hri; simpl; [exact Hri|].
  apply IH. unfold commit.
  destruct (exec s q db) as [db'|e] eqn:H; [|exact Hri].
  now apply (exec_referential_integrity s q db).
Qed.

(** X5: in every state the migrated database can reach, whoever ran the
    statements, every row satisfies the [REFERENCES] clauses of its table: a
    user is a user of the identity provider, the [user_id] of an
    organization, a charity or a volunteer is the id of a user, the
    [organization_id] of a donation is the id of an organization, and the
    [donation_id], and the [charity_id] and [volunteer_id] when not NULL, of a
    pickup are the ids of a donation, a charity and a volunteer. *)
Theorem reachable_referential_integrity (db : database) :
  reachable db -> referential_integrity db.
Proof.
  intros (au & log & ->). apply run_referential_integrity.
  intros t r Hin. destruct t; destruct Hin.
Qed.

Lemma reachable_referential_integrity_witness :
  referential_integrity sample.double_booked.
Proof.
  apply (reachable_referential_integrity sample.double_booked).
  exists [1; 2; 3; 4; 5]%N,
         (sample.seed ++ [(rls_exempt, INSERT_INTO Pickups (sample.handoff 1001%N))])%list.
  reflexivity.
Defined.

(** ** Lookups by id *)

Lemma find_by_unique_key (t : table) (l : list (row_of t)) (r : row_of t) :
  NoDup (map (pk t) l) -> In r l ->
  find (fun r' => N.eqb (pk t r') (pk t r)) l = Some r.
Proof.
  induction l as [|r0 l IH]; simpl; [intros _ []|].
  intros Hnd Hin. inversion Hnd as [|k ks Hnotin Hnd']; subst.
  destruct (N.eqb_spec (pk t r0) (pk t r)) as [He|Hne].
  - destruct Hin as [-> | Hin]; [reflexivity|].
    exfalso. apply Hnotin. rewrite He. now apply in_map.
  - destruct Hin as [-> | Hin]; [congruence | auto].
Qed.

Lemma same_key_same_row (t : table) (l : list (row_of t)) (r1 r2 : row_of t) :
  NoDup (map (pk t) l) -> In r1 l -> In r2 l -> pk t r1 = pk t r2 -> r1 = r2.
Proof.
  intros Hnd H1 H2 He.
  pose proof (find_by_unique_key t l r1 Hnd H1) as F1.
  pose proof (find_by_unique_key t l r2 Hnd H2) as F2.
  rewrite He in F1. congruence.
Qed.

(** X6: in every reachable state the id identifies the row: looking a stored
    row up by its id finds that row, in each of the seven tables
    ([id UUID PRIMARY KEY]). *)
Theorem lookup_by_id_finds_the_row (db : database) (t : table) (r : row_of t) :
  reachable db -> In r (rows t db) -> find_row t (pk t r) db = Some r.
Proof.
  intros Hreach Hin. unfold find_row.
  apply find_by_unique_key; [|exact Hin].
  now apply reachable_unique_keys.
Qed.

Lemma lookup_by_id_finds_the_row_witness :
  find_row Volunteers (pk Volunteers (sample.courier 31%N 5%N)) sample.db
  = Some (sample.courier 31%N 5%N).
Proof.
  apply (lookup_by_id_finds_the_row sample.db Volunteers (sample.courier 31%N 5%N)).
  - exists [1; 2; 3; 4; 5]%N, sample.seed. reflexivity.
  - simpl. auto.
Defined.

Lemma find_app_fresh {R : Type} (f : R -> bool) (l : list R) (x : R) :
  find f (l ++ [x])
  = match find f l with
    | Some r => Some r
    | None => if f x then Some x else None
    end.
Proof.
  induction l as [|r l IH]; simpl; [reflexivity|].
  destruct (f r); [reflexivity | exact IH].
Qed.

Lemma find_none_absent {R : Type} (f : R -> bool) (l : list R) :
  existsb f l = false -> find f l = None.
Proof.
  induction l as [|r l IH]; simpl; [reflexivity|].
  destruct (f r); simpl; [discriminate | exact IH].
Qed.

(** X7: insert, then look up.  After an INSERT that succeeds, by any
    session, the new id finds the row inserted, every other id of the table
    finds what it found before, and the other tables are as they were. *)
Theorem insert_then_lookup (s : session) (t : table) (new : row_of t)
    (db db' : database) :
  exec s (INSERT_INTO t new) db = Ok db' ->
  find_row t (pk t new) db' = Some new
  /\ (forall k, k <> pk t new -> find_row t k db' = find_row t k db)
  /\ (forall T, T <> t -> rows T db' = rows T db).
Proof.
  simpl. intros H.
  destruct (may_insert s t db new); simpl in H; [|discriminate].
  destruct (has_key t (pk t new) db) eqn:Hkey; [discriminate|].
  destruct (foreign_keys t db new); simpl in H; [|discriminate].
  injection H as <-. unfold find_row. rewrite rows_set_rows. repeat split.
  - rewrite find_app_fresh, (find_none_absent _ _ Hkey). now rewrite N.eqb_refl.
  - intros k Hk. rewrite find_app_fresh.
    destruct (find (fun r => N.eqb (pk t r) k) (rows t db)); [reflexivity|].
    destruct (N.eqb_spec (pk t new) k); congruence.
  - intros T HT. now apply rows_set_rows_other.
Qed.

Lemma insert_then_lookup_witness :
  find_row Donations 101%N
    (commit (client (sample.signed_in 2%N))
       (INSERT_INTO Donations (sample.bread 101%N (Some pending))) sample.db)
  = Some (sample.bread 101%N (Some pending)).
Proof.
  apply (insert_then_lookup (client (sample.signed_in 2%N)) Donations
           (sample.bread 101%N (Some pending)) sample.db).
  reflexivity.
Defined.

Lemma find_remove_row (t : table) (i k : uuid) (l : list (row_of t)) :
  find (fun r => N.eqb (pk t r) k) (remove_row t i l)
  = if N.eqb k i then None else find (fun r => N.eqb (pk t r) k) l.
Proof.
  unfold remove_row. induction l as [|r l IH]; simpl.
  - now destruct (N.eqb k i).
  - destruct (N.eqb_spec (pk t r) i) as [Hi|Hi]; simpl.
    + rewrite IH. destruct (N.eqb_spec k i) as [Hk|Hk]; [reflexivity|].
      destruct (N.eqb_spec (pk t r) k); [congruence | reflexivity].
    + destruct (N.eqb_spec (pk t r) k) as [Hk|Hk].
      * destruct (N.eqb_spec k i); [congruence | reflexivity].
      * exact IH.
Qed.

(** X8: delete, then look up.  A DELETE of a stored row that the session may
    delete fails with a foreign-key violation when a row of another table
    points to it (the [REFERENCES] clauses have no [ON DELETE] action);
    otherwise it succeeds, the id finds nothing any more and every other id
    finds what it found before. *)
Theorem delete_then_lookup (s : session) (t : table) (i : uuid) (old : row_of t)
    (db : database) :
  find_row t i db = Some old -> may_delete s t db old = true ->
  if referenced t i db
  then exec s (DELETE_WHERE_ID t i) db = Err foreign_key_violation
  else exists db',
         exec s (DELETE_WHERE_ID t i) db = Ok db'
         /\ find_row t i db' = None
         /\ forall k, k <> i -> find_row t k db' = find_row t k db.
Proof.
  intros Hfind Hmay. simpl. rewrite Hfind, Hmay. simpl.
  destruct (referenced t i db); [reflexivity|].
  eexists. split; [reflexivity|]. unfold find_row. rewrite rows_set_rows. split.
  - now rewrite find_remove_row, N.eqb_refl.
  - intros k Hk. rewrite find_remove_row.
    destruct (N.eqb_spec k i); [contradiction | reflexivity].
Qed.

Lemma delete_then_lookup_witness :
  exec (client (sample.signed_in 2%N)) (DELETE_WHERE_ID Organizations 10%N) sample.db
  = Err foreign_key_violation.
Proof.
  apply (delete_then_lookup (client (sample.signed_in 2%N)) Organizations 10%N
           sample.bakery_shop sample.db); reflexivity.
Defined.

(** ** What a principal's statement does *)

(** X9: on [users], [pickups] and [impact_metrics], the tables whose policies
    are all [FOR SELECT], a principal's INSERT is refused with a row-security
    violation, whereas its UPDATE and its DELETE succeed and affect no row:
    the refusal is silent, the caller gets no error. *)
Theorem select_only_statement_outcomes (t : table) (p : principal) (db : database) :
  select_only t = true ->
  (forall new, exec (client p) (INSERT_INTO t new) db = Err row_security_violation)
  /\ (forall i new, exec (client p) (UPDATE_WHERE_ID t i new) db = Ok db)
  /\ (forall i, exec (client p) (DELETE_WHERE_ID t i) db = Ok db).
Proof.
  intros Hso. repeat split.
  - intros new. simpl.
    destruct (select_only_no_write t p db new Hso) as (-> & _). reflexivity.
  - intros i new. simpl. destruct (find_row t i db) as [old|]; [|reflexivity].
    destruct (select_only_no_write t p db old Hso) as (_ & -> & _). reflexivity.
  - intros i. simpl. destruct (find_row t i db) as [old|]; [|reflexivity].
    destruct (select_only_no_write t p db old Hso) as (_ & _ & ->). reflexivity.
Qed.

Lemma select_only_statement_outcomes_witness :
  (forall new, exec (client (sample.signed_in 4%N)) (INSERT_INTO Pickups new) sample.db
               = Err row_security_violation)
  /\ (forall i new, exec (client (sample.signed_in 4%N)) (UPDATE_WHERE_ID Pickups i new)
                         sample.db = Ok sample.db)
  /\ (forall i, exec (client (sample.signed_in 4%N)) (DELETE_WHERE_ID Pickups i) sample.db
                = Ok sample.db).
Proof.
  apply (select_only_statement_outcomes Pickups (sample.signed_in 4%N) sample.db).
  reflexivity.
Defined.

Lemma no_users_no_own_profile (f : profile) (p : principal) (db : database)
    (e : row_of (profile_table f)) :
  users_rows db = [] -> own_profile f p db e = false.
Proof.
  intros Hu. destruct (own_profile f p db e) eqn:H; [|reflexivity].
  apply own_profile_true in H. destruct H as (_ & u & Hin & _).
  rewrite Hu in Hin. destruct Hin.
Qed.

Lemma no_organizations_no_own_donation (p : principal) (db : database)
    (d : donations.row) :
  organizations_rows db = [] -> own_donation p db d = false.
Proof.
  intros Ho. destruct (own_donation p db d) eqn:H; [|reflexivity].
  apply own_donation_true in H. destruct H as (_ & u & _ & o & Hin & _).
  rewrite Ho in Hin. destruct Hin.
Qed.

Lemma donation_using (c : command) (p : principal) (db : database)
    (d : donations.row) :
  c <> SELECT -> passes_using c Donations p db d = own_donation p db d.
Proof.
  intros Hc. destruct c; try congruence;
    unfold passes_using, rls_using, own_donation; simpl; now rewrite orb_false_r.
Qed.

Lemma donation_check (c : command) (p : principal) (db : database)
    (d : donations.row) :
  c <> SELECT -> passes_check c Donations p db d = own_donation p db d.
Proof.
  intros Hc. destruct c; try congruence;
    unfold passes_check, rls_check, own_donation; simpl; now rewrite orb_false_r.
Qed.

Lemma no_write_without_users (t : table) (p : principal) (db : database)
    (r : row_of t) :
  users_rows db = [] -> organizations_rows db = [] ->
  can_insert t p db r = false
  /\ can_update_row t p db r = false
  /\ can_delete t p db r = false.
Proof.
  intros Hu Ho.
  destruct t; try (apply select_only_no_write; reflexivity);
    unfold can_insert, can_update_row, can_delete.
  - rewrite (profile_check Organization), !(profile_using Organization) by discriminate.
    rewrite (no_users_no_own_profile Organization p db r Hu), !andb_false_r. auto.
  - rewrite (profile_check Charity), !(profile_using Charity) by discriminate.
    rewrite (no_users_no_own_profile Charity p db r Hu), !andb_false_r. auto.
  - rewrite (profile_check Volunteer), !(profile_using Volunteer) by discriminate.
    rewrite (no_users_no_own_profile Volunteer p db r Hu), !andb_false_r. auto.
  - rewrite donation_check, !donation_using by discriminate.
    rewrite (no_organizations_no_own_donation p db r Ho), !andb_false_r. auto.
Qed.

Lemma commit_without_users (p : principal) (q : statement) (db : database) :
  users_rows db = [] -> organizations_rows db = [] -> commit (client p) q db = db.
Proof.
  intros Hu Ho. unfold commit.
  destruct q as [t new | t i new | t i]; simpl.
  - destruct (no_write_without_users t p db new Hu Ho) as (-> & _). reflexivity.
  - destruct (find_row t i db) as [old|]; [|reflexivity].
    destruct (no_write_without_users t p db old Hu Ho) as (_ & -> & _). reflexivity.
  - destruct (find_row t i db) as [old|]; [|reflexivity].
    destruct (no_write_without_users t p db old Hu Ho) as (_ & _ & ->). reflexivity.
Qed.

(** X10: the principals cannot populate an empty database.  While [users]
    and [organizations] are empty, as they are after the migration, no
    statement of any principal changes anything: the first users have to be
    stored by a session exempt from row security. *)
Theorem clients_cannot_bootstrap (log : list (principal * statement)) (db : database) :
  users_rows db = [] -> organizations_rows db = [] -> run (by_clients log) db = db.
Proof.
  intros Hu Ho. induction log as [|[p q] log IH]; simpl; [reflexivity|].
  now rewrite (commit_without_users p q db Hu Ho).
Qed.

Lemma clients_cannot_bootstrap_witness :
  run (by_clients
         [ (sample.signed_in 2%N, INSERT_INTO Users sample.dalia);
           (sample.signed_in 2%N, INSERT_INTO Organizations sample.bakery_shop);
           (sample.signed_in 2%N, INSERT_INTO Donations (sample.bread 100%N None)) ])
      (migrated [1; 2; 3; 4; 5]%N)
  = migrated [1; 2; 3; 4; 5]%N.
Proof.
  apply (clients_cannot_bootstrap
           [ (sample.signed_in 2%N, INSERT_INTO Users sample.dalia);
             (sample.signed_in 2%N, INSERT_INTO Organizations sample.bakery_shop);
             (sample.signed_in 2%N, INSERT_INTO Donations (sample.bread 100%N None)) ]
           (migrated [1; 2; 3; 4; 5]%N)); reflexivity.
Defined.

(** ** Profiles: what their owner does *)






(** A row that the policies let a principal insert satisfies its foreign
    keys. *)



(** ** pickups with NULL parties *)

Lemma pickup_select_parties (p : principal) (db : database) (k : pickups.row) :
  can_select Pickups p db k = true
  <-> exists u, is_user p u /\ In (Some u) (pickup_parties p db k).
Proof.
  unfold can_select, passes_using, rls_using.
  cbn [relrowsecurity policies pickups_policies existsb applies polcmd command_eqb
       andb using_expression polqual].
  rewrite orb_false_r. apply sql_in_true.
Qed.

(** X14: a pickup whose [volunteer_id] and [charity_id] are both NULL is read
    by the user of the organization that owns its donation (who sees that
    organization row), and by nobody else: a NULL party matches no
    volunteer and no charity. *)
Theorem unassigned_pickup_read_by_donor_only (p : principal) (db : database)
    (k : pickups.row) :
  pickups.volunteer_id k = None -> pickups.charity_id k = None ->
  (can_select Pickups p db k = true
   <-> exists u, is_user p u /\ pickup_donor db k u /\ sees_own db p donor).
Proof.
  intros Hv Hc. rewrite pickup_select_parties. unfold pickup_parties.
  split; intros (u & Hu & H); exists u; (split; [exact Hu|]).
  - rewrite !sql_union_In in H. destruct H as [[H | H] | H].
    + apply (volunteers_branch p db k u Hu) in H.
      destruct H as [(v & _ & Hid & _) _]. congruence.
    + apply (charities_branch p db k u Hu) in H.
      destruct H as [(c & _ & Hid & _) _]. congruence.
    + now apply (organizations_branch p db k u Hu).
  - rewrite !sql_union_In. right. now apply (organizations_branch p db k u Hu).
Qed.

Lemma unassigned_pickup_read_by_donor_only_witness :
  can_select Pickups (sample.signed_in 2%N) sample.db unassigned_pickup = true
  <-> exists u, is_user (sample.signed_in 2%N) u
                /\ pickup_donor sample.db unassigned_pickup u
                /\ sees_own sample.db (sample.signed_in 2%N) donor.
Proof.
  apply (unassigned_pickup_read_by_donor_only (sample.signed_in 2%N) sample.db
           unassigned_pickup); reflexivity.
Defined.

(** ** One user, one row, one role *)

Lemma NoDup_keys_filter (t : table) (f : row_of t -> bool) (l : list (row_of t)) :
  NoDup (map (pk t) l) -> NoDup (map (pk t) (filter f l)).
Proof.
  induction l as [|r l IH]; simpl; [auto|].
  intros Hnd. inversion Hnd as [|k ks Hnotin Hnd']; subst.
  destruct (f r); simpl; [|auto].
  constructor; [|auto].
  intros Hin. apply Hnotin. apply in_map_iff in Hin.
  destruct Hin as (r' & Hk & Hin). apply filter_In in Hin.
  apply in_map_iff. exists r'. tauto.
Qed.

(** X15: in every reachable state a principal's SELECT on [users] returns at
    most one row: the rows it sees all have its own id, and the id is the
    primary key. *)
Theorem users_select_at_most_one_row (p : principal) (db : database) :
  reachable db ->
  (List.length (select_from Users users_policies p db (users_rows db)) <= 1)%nat.
Proof.
  intros Hreach.
  pose proof (reachable_unique_keys db Users Hreach) as Hnd.
  unfold unique_keys in Hnd. simpl in Hnd.
  assert (Hsel : forall u, In u (select_from Users users_policies p db (users_rows db))
                           -> is_user p (users.id u))
    by (intros u Hin; now apply select_from_users in Hin).
  assert (Hnd' : NoDup (map users.id
                          (select_from Users users_policies p db (users_rows db)))).
  { unfold select_from. simpl relrowsecurity. cbv iota.
    now apply (NoDup_keys_filter Users). }
  destruct (select_from Users users_policies p db (users_rows db)) as [|a [|b l]];
    simpl; [lia | lia |].
  exfalso.
  assert (Ha : is_user p (users.id a)) by (apply Hsel; simpl; auto).
  assert (Hb : is_user p (users.id b)) by (apply Hsel; simpl; auto).
  unfold is_user in *. inversion Hnd' as [|x xs Hnotin _]; subst.
  apply Hnotin. left. congruence.
Qed.

Lemma users_select_at_most_one_row_witness :
  (List.length (select_from Users users_policies (sample.signed_in 4%N) sample.db
             (users_rows sample.db)) <= 1)%nat.
Proof.
  apply (users_select_at_most_one_row (sample.signed_in 4%N) sample.db).
  exists [1; 2; 3; 4; 5]%N, sample.seed. reflexivity.
Defined.

Lemma one_role_per_principal (db : database) (p : principal) (r1 r2 : user_role) :
  reachable db -> has_role db p r1 -> has_role db p r2 -> r1 = r2.
Proof.
  intros Hreach (u1 & Hin1 & Hu1 & <-) (u2 & Hin2 & Hu2 & <-).
  pose proof (reachable_unique_keys db Users Hreach) as Hnd.
  f_equal. apply (same_key_same_row Users (users_rows db)); auto.
  unfold is_user in *. simpl. congruence.
Qed.

Lemma permitted_profile_has_role (f : profile) (p : principal) (db : database)
    (w : write (row_of (profile_table f))) :
  permitted (profile_table f) p db w = true -> has_role db p (profile_role f).
Proof.
  rewrite profile_permitted.
  destruct w as [new | old new | old]; simpl; rewrite ?andb_true_iff;
    intros H; decompose [and] H;
    match goal with
    | Hown : own_profile f p db _ = true |- _ =>
        apply own_profile_true in Hown; now destruct Hown
    end.
Qed.

(** X16: the three profile families exclude each other.  In every reachable
    state a principal has at most one role, so that a principal who is
    permitted a write in one of [organizations], [charities] and [volunteers]
    is permitted no write in the other two. *)
Theorem profile_families_exclusive (f f' : profile) (p : principal) (db : database)
    (w : write (row_of (profile_table f))) (w' : write (row_of (profile_table f'))) :
  reachable db ->
  permitted (profile_table f) p db w = true ->
  f <> f' ->
  permitted (profile_table f') p db w' = false.
Proof.
  intros Hreach Hw Hne.
  destruct (permitted (profile_table f') p db w') eqn:Hw'; [|reflexivity].
  apply permitted_profile_has_role in Hw. apply permitted_profile_has_role in Hw'.
  pose proof (one_role_per_principal db p _ _ Hreach Hw Hw') as He.
  destruct f, f'; simpl in He; congruence.
Qed.

Lemma profile_families_exclusive_witness :
  permitted Organizations (sample.signed_in 4%N) sample.db
    (updating sample.bakery_shop verified_bakery) = false.
Proof.
  apply (profile_families_exclusive Volunteer Organization (sample.signed_in 4%N)
           sample.db (deleting (sample.courier 30%N 4%N))
           (updating sample.bakery_shop verified_bakery)).
  - exists [1; 2; 3; 4; 5]%N, sample.seed. reflexivity.
  - reflexivity.
  - discriminate.
Defined.
